(** * Reveal: the scroll-reveal wrapper of the portfolio page

    Source: [src/pages/nishanth-portofolio.tsx], the helper [cn] and the
    component [Reveal] (lines 56-103).

    [Reveal] is a React function component.  Its behaviour is fixed by
    the component body together with what its host does with it: React
    (mounting, the [useState] cell, the [useRef] cell, running the effect
    and its cleanup) and the browser (the media query, the
    [IntersectionObserver] objects and the timers).  The component body is
    embedded below as a program in a small state-and-exception monad [Js]
    over a record [World] holding those cells and objects; the host is a
    set of primitive operations of that monad and an event loop [step].

    Every use of [Reveal] in the page passes a [delay] that is a constant
    of the static content ([i * 50], [i * 80], [80] or the default) under
    a stable key, so the dependency list [[delay]] of the effect never
    changes for an instance: the effect body runs once, when the instance
    is mounted, and its cleanup once, when the instance is unmounted. *)

From Stdlib Require Import ZArith QArith Bool List Lia Ascii String.
From stdpp Require Import base tactics option list strings gmap.
Import ListNotations.

Close Scope Q_scope.
Local Open Scope Z_scope.
Local Open Scope list_scope.

(** ** Data *)

(** A DOM element is known by its identity only. *)
Definition Element := nat.

(** [ReactNode]: the wrapped content, opaque to the mechanism. *)
Definition ReactNode := nat.

(** [interface RevealProp]: the two optional fields may be [undefined];
    a [delay] is a whole number of milliseconds, as in every use in the
    page. *)
Record RevealProp := {
  children : ReactNode;
  className : option string;
  delay : option Z
}.

(** The result of [window.matchMedia(q)], of which only [.matches] is read. *)
Record MediaQueryList := { matches : bool }.

(** What the effect reads from the global object: [window.matchMedia], which
    the source calls through [?.] and so allows to be missing, and the global
    constructor [IntersectionObserver], which it uses unguarded. *)
Record Window := {
  matchMedia : option (string -> MediaQueryList);
  IntersectionObserver_defined : bool
}.

(** An entry as the browser reports it.  The callback reads
    [isIntersecting] only. *)
Record IntersectionObserverEntry := {
  target : Element;
  isIntersecting : bool;
  intersectionRatio : Q
}.

(** The options object [{ threshold: 0.2 }]. *)
Record IntersectionObserverInit := { threshold : Q }.

(** An observer in the store: the closure it was built with (the callback
    of [Reveal], which captures [delay]), its options and the elements it
    currently observes.  [disconnect] empties [obs_targets]. *)
Record IntersectionObserver := {
  obs_delay : Z;
  obs_init : IntersectionObserverInit;
  obs_targets : list Element
}.

Definition ObserverId := nat.

(** The only handler ever given to [setTimeout]: [() => setVisible(true)]. *)
Inductive TimerHandler := SetVisibleTrue.

Record Timer := {
  timer_id : nat;
  due : Z;
  handler : TimerHandler
}.

(** Life of a component instance. *)
Inductive Phase := Initial | Attached | Detached.

(** The function an effect returns: [() => obs.disconnect()]. *)
Inductive Cleanup := Disconnect (obs : ObserverId).

(** The cells and objects one instance lives in.
    - [visible]: the [useState(false)] cell;
    - [ref_current]: the [useRef(null)] cell;
    - [effect_cleanup]: what the last run of the effect returned;
    - [observers]: the observers constructed so far, by identity;
    - [timers]: the timers not fired yet; [timer_seq] counts the calls of
      [setTimeout];
    - [now]: the clock, in milliseconds. *)
Record World := {
  visible : bool;
  ref_current : option Element;
  phase : Phase;
  effect_cleanup : option Cleanup;
  observers : list IntersectionObserver;
  timers : list Timer;
  timer_seq : nat;
  now : Z
}.

Definition with_visible (b : bool) (w : World) : World :=
  {| visible := b; ref_current := ref_current w; phase := phase w;
     effect_cleanup := effect_cleanup w; observers := observers w;
     timers := timers w; timer_seq := timer_seq w; now := now w |}.

Definition with_ref (r : option Element) (w : World) : World :=
  {| visible := visible w; ref_current := r; phase := phase w;
     effect_cleanup := effect_cleanup w; observers := observers w;
     timers := timers w; timer_seq := timer_seq w; now := now w |}.

Definition with_phase (p : Phase) (w : World) : World :=
  {| visible := visible w; ref_current := ref_current w; phase := p;
     effect_cleanup := effect_cleanup w; observers := observers w;
     timers := timers w; timer_seq := timer_seq w; now := now w |}.

Definition with_cleanup (c : option Cleanup) (w : World) : World :=
  {| visible := visible w; ref_current := ref_current w; phase := phase w;
     effect_cleanup := c; observers := observers w;
     timers := timers w; timer_seq := timer_seq w; now := now w |}.

Definition with_observers (os : list IntersectionObserver) (w : World) : World :=
  {| visible := visible w; ref_current := ref_current w; phase := phase w;
     effect_cleanup := effect_cleanup w; observers := os;
     timers := timers w; timer_seq := timer_seq w; now := now w |}.

Definition with_timers (ts : list Timer) (n : nat) (w : World) : World :=
  {| visible := visible w; ref_current := ref_current w; phase := phase w;
     effect_cleanup := effect_cleanup w; observers := observers w;
     timers := ts; timer_seq := n; now := now w |}.

Definition with_now (t : Z) (w : World) : World :=
  {| visible := visible w; ref_current := ref_current w; phase := phase w;
     effect_cleanup := effect_cleanup w; observers := observers w;
     timers := timers w; timer_seq := timer_seq w; now := t |}.

(** The instance before it is mounted: [useState(false)], [useRef(null)]. *)
Definition fresh : World :=
  {| visible := false; ref_current := None; phase := Initial;
     effect_cleanup := None; observers := []; timers := [];
     timer_seq := 0%nat; now := 0 |}.

(** ** The monad of effects *)

Inductive JsError := ReferenceError (name : string).

Inductive Completion (A : Type) :=
| Normal (a : A)
| Throw (e : JsError).
Arguments Normal {A} a.
Arguments Throw {A} e.

Definition Js (A : Type) : Type := World -> Completion A * World.

Definition ret {A} (a : A) : Js A := fun w => (Normal a, w).

Definition bind {A B} (m : Js A) (k : A -> Js B) : Js B :=
  fun w =>
    match m w with
    | (Normal a, w') => k a w'
    | (Throw e, w') => (Throw e, w')
    end.

Definition throw {A} (e : JsError) : Js A := fun w => (Throw e, w).

Declare Scope js_scope.
Delimit Scope js_scope with js.
Notation "x <- m ;; k" := (bind m (fun x => k))
  (at level 20, m at level 99, k at level 200) : js_scope.
Notation "m ;; k" := (bind m (fun _ => k))
  (at level 100, k at level 200, right associativity) : js_scope.
Local Open Scope js_scope.

(** [Array.prototype.forEach]: the callback runs on every element, in
    order; nothing but an exception stops it. *)
Fixpoint forEach {A} (l : list A) (f : A -> Js unit) : Js unit :=
  match l with
  | [] => ret tt
  | x :: l' => f x ;; forEach l' f
  end.

(** The world a computation ends in, whether it returned or threw. *)
Definition exec {A} (m : Js A) (w : World) : World := snd (m w).

Definition returns {A} (m : Js A) (w : World) : bool :=
  match fst (m w) with Normal _ => true | Throw _ => false end.

(** ** Host primitives *)

(** The state setter of [useState].  React drops an update addressed to
    an instance that is not mounted. *)
Definition setVisible (b : bool) : Js unit :=
  fun w =>
    match phase w with
    | Attached => (Normal tt, with_visible b w)
    | _ => (Normal tt, w)
    end.

(** [ref.current]. *)
Definition get_ref_current : Js (option Element) :=
  fun w => (Normal (ref_current w), w).

(** The timer API takes its delay as a signed 32-bit integer: the number
    wraps modulo 2^32, and a negative result counts as zero. *)
Definition to_long (n : Z) : Z := (n + 2 ^ 31) mod 2 ^ 32 - 2 ^ 31.

Definition timeout_ms (ms : Z) : Z := Z.max 0 (to_long ms).

(** [setTimeout(handler, ms)]: a one-shot timer due [timeout_ms ms]
    milliseconds from now. *)
Definition setTimeout (h : TimerHandler) (ms : Z) : Js nat :=
  fun w =>
    (Normal (timer_seq w),
     with_timers
       (timers w ++ [{| timer_id := timer_seq w; due := now w + timeout_ms ms;
                        handler := h |}])
       (S (timer_seq w)) w).

(** [new IntersectionObserver(callback, init)], the callback being the one
    of [Reveal] with its captured [delay].  Evaluating the name of a global
    that does not exist throws a [ReferenceError]. *)
Definition new_IntersectionObserver (win : Window) (d : Z)
    (init : IntersectionObserverInit) : Js ObserverId :=
  fun w =>
    if IntersectionObserver_defined win then
      (Normal (length (observers w)),
       with_observers
         (observers w ++ [{| obs_delay := d; obs_init := init; obs_targets := [] |}])
         w)
    else throw (ReferenceError "IntersectionObserver") w.

Definition add_target (el : Element) (o : IntersectionObserver) : IntersectionObserver :=
  {| obs_delay := obs_delay o; obs_init := obs_init o;
     obs_targets := obs_targets o ++ [el] |}.

Definition clear_targets (o : IntersectionObserver) : IntersectionObserver :=
  {| obs_delay := obs_delay o; obs_init := obs_init o; obs_targets := [] |}.

(** [obs.observe(el)]. *)
Definition observe (obs : ObserverId) (el : Element) : Js unit :=
  fun w => (Normal tt, with_observers (alter (add_target el) obs (observers w)) w).

(** [obs.disconnect()]. *)
Definition disconnect (obs : ObserverId) : Js unit :=
  fun w => (Normal tt, with_observers (alter clear_targets obs (observers w)) w).

(** ** The component *)

(** JavaScript truthiness of [undefined | boolean]. *)
Definition truthy (v : option bool) : bool :=
  match v with Some true => true | _ => false end.

(** [window.matchMedia?.("(prefers-reduced-motion: reduce)").matches]:
    [undefined] when [matchMedia] is missing. *)
Definition prefersReduced (win : Window) : option bool :=
  match matchMedia win with
  | Some mm => Some (matches (mm "(prefers-reduced-motion: reduce)"))
  | None => None
  end.

(** The function passed to the constructor (source lines 75-83), [obs]
    being the observer under construction and [d] the captured [delay]. *)
Definition Reveal_callback (d : Z) (obs : ObserverId)
    (entries : list IntersectionObserverEntry) : Js unit :=
  forEach entries (fun e =>
    if isIntersecting e then
      setTimeout SetVisibleTrue d ;;
      disconnect obs
    else ret tt).

(** The body of [useEffect] (source lines 65-88); it returns the cleanup
    function, if any. *)
Definition Reveal_effect (win : Window) (d : Z) : Js (option Cleanup) :=
  if truthy (prefersReduced win) then
    setVisible true ;;
    ret None
  else
    el <- get_ref_current ;;
    match el with
    | None => ret None
    | Some el =>
        obs <- new_IntersectionObserver win d {| threshold := 0.2 |} ;;
        observe obs el ;;
        ret (Some (Disconnect obs))
    end.

Definition run_cleanup (c : Cleanup) : Js unit :=
  match c with Disconnect obs => disconnect obs end.

(** The destructuring defaults [className = ""], [delay = 0]. *)
Definition delay_of (p : RevealProp) : Z := default 0 (delay p).
Definition className_of (p : RevealProp) : string := default "" (className p).

(** The helper [cn] (source lines 56-58):
    [classes.filter(Boolean).join(" ")]. *)
Inductive ClassValue :=
| CString (s : string)
| CUndefined
| CNull
| CFalse.

(** [Boolean(v)]: of these values only a non-empty string is truthy. *)
Definition Boolean (v : ClassValue) : bool :=
  match v with
  | CString s => negb (String.eqb s "")
  | _ => false
  end.

(** How [join] prints an element. *)
Definition to_string (v : ClassValue) : string :=
  match v with
  | CString s => s
  | CUndefined | CNull => ""
  | CFalse => "false"
  end.

Definition cn (classes : list ClassValue) : string :=
  String.concat " " (map to_string (List.filter Boolean classes)).

(** The element [Reveal] returns (source lines 90-102). *)
Record Div := {
  div_className : string;
  div_children : ReactNode
}.

Definition Reveal_render (p : RevealProp) (vis : bool) : Div :=
  {| div_className :=
       cn [ CString "transform transition-all duration-500 ease-out will-change-[opacity,transform]";
            CString (if vis then "opacity-100 translate-y-0" else "opacity-0 translate-y-3");
            CString (className_of p) ];
     div_children := children p |}.

(** ** The host's event loop *)

(** Where an instance runs: the global object, and the DOM node React
    creates for the [div] and stores in [ref.current] before it runs the
    effect ([None] under a renderer that creates no nodes). *)
Record Host := {
  window : Window;
  container : option Element
}.

(** What can happen to an instance:
    - [Mount]: React mounts it and runs the effect;
    - [Intersect obs entries]: the browser calls the callback of observer
      [obs] with [entries];
    - [Elapse ms]: [ms] milliseconds pass, and the timers then due fire;
    - [Unmount]: React removes it and runs the effect's cleanup. *)
Inductive Event :=
| Mount
| Intersect (obs : ObserverId) (entries : list IntersectionObserverEntry)
| Elapse (ms : N)
| Unmount.

Definition set_phase (ph : Phase) : Js unit :=
  fun w => (Normal tt, with_phase ph w).

Definition set_ref_current (r : option Element) : Js unit :=
  fun w => (Normal tt, with_ref r w).

Definition set_cleanup (c : option Cleanup) : Js unit :=
  fun w => (Normal tt, with_cleanup c w).

(** Mounting: the [div] is committed, [ref.current] is set, the effect
    runs and React keeps what it returned.  An instance is mounted once. *)
Definition mount (h : Host) (p : RevealProp) : Js unit :=
  fun w =>
    match phase w with
    | Initial =>
        (set_phase Attached ;;
         set_ref_current (container h) ;;
         c <- Reveal_effect (window h) (delay_of p) ;;
         set_cleanup c) w
    | _ => (Normal tt, w)
    end.

(** Unmounting: the cleanup the effect returned runs, React clears the
    reference and forgets the instance. *)
Definition unmount : Js unit :=
  fun w =>
    match phase w with
    | Attached =>
        (match effect_cleanup w with
         | Some c => run_cleanup c
         | None => ret tt
         end ;;
         set_ref_current None ;;
         set_phase Detached) w
    | _ => (Normal tt, w)
    end.

(** The browser calls an observer's callback only while the observer
    observes some element: after [disconnect] it reports nothing. *)
Definition deliver (obs : ObserverId) (entries : list IntersectionObserverEntry)
    : Js unit :=
  fun w =>
    match observers w !! obs with
    | Some o =>
        match obs_targets o with
        | [] => (Normal tt, w)
        | _ :: _ => Reveal_callback (obs_delay o) obs entries w
        end
    | None => (Normal tt, w)
    end.

Definition run_handler (h : TimerHandler) : Js unit :=
  match h with SetVisibleTrue => setVisible true end.

Definition is_due (t : Z) (tm : Timer) : bool := due tm <=? t.

(** The timers due at the current time run, in the order they were set,
    and are gone: each is one-shot. *)
Definition fire_due : Js unit :=
  fun w =>
    forEach (List.filter (is_due (now w)) (timers w))
            (fun tm => run_handler (handler tm))
            (with_timers (List.filter (fun tm => negb (is_due (now w) tm)) (timers w))
                         (timer_seq w) w).

Definition elapse (ms : N) : Js unit :=
  fun w => fire_due (with_now (now w + Z.of_N ms) w).

Definition step (h : Host) (p : RevealProp) (ev : Event) : Js unit :=
  match ev with
  | Mount => mount h p
  | Intersect obs entries => deliver obs entries
  | Elapse ms => elapse ms
  | Unmount => unmount
  end.

(** A history of an instance; it ends at the first exception. *)
Definition run (h : Host) (p : RevealProp) (evs : list Event) : Js unit :=
  forEach evs (step h p).

(** The worlds a history goes through, the starting one included. *)
Fixpoint history (h : Host) (p : RevealProp) (evs : list Event) (w : World)
    : list World :=
  w :: match evs with
       | [] => []
       | ev :: evs' =>
           match step h p ev w with
           | (Normal _, w') => history h p evs' w'
           | (Throw _, w') => [w']
           end
       end.

(** * The vocabulary of the properties *)

(** ** Observers, entries and timers *)

(** The observer the effect builds for container [el]. *)
Definition Reveal_observer (p : RevealProp) (el : Element) : IntersectionObserver :=
  {| obs_delay := delay_of p;
     obs_init := {| threshold := 0.2 |};
     obs_targets := [el] |}.

(** No observer of the instance observes anything. *)
Definition disconnected (w : World) : Prop :=
  Forall (fun o => obs_targets o = []) (observers w).

(** The entries of a batch that pass the test [e.isIntersecting]. *)
Definition qualifying (entries : list IntersectionObserverEntry)
    : list IntersectionObserverEntry :=
  List.filter isIntersecting entries.

(** How the browser sets the flag of an entry it reports to an observer
    whose only threshold is the positive ratio [th]: the element counts as
    intersecting when the visible part of its area has reached [th]. *)
Definition reported_at (th : Q) (e : IntersectionObserverEntry) : Prop :=
  isIntersecting e = true <-> (th <= intersectionRatio e)%Q.

(** [n] timers set in a row at one instant, all for the same delay. *)
Fixpoint new_timers (seq : nat) (n : nat) (D : Z) : list Timer :=
  match n with
  | O => []
  | S n' => {| timer_id := seq; due := D; handler := SetVisibleTrue |}
            :: new_timers (S seq) n' D
  end.

(** ** The flag along a history *)

(** How many times a sequence of flag values goes from [false] to [true],
    and from [true] to [false]. *)
Fixpoint rises (bs : list bool) : nat :=
  match bs with
  | [] => 0
  | b :: tl =>
      (match tl with
       | b' :: _ => if negb b && b' then 1 else 0
       | [] => 0
       end + rises tl)%nat
  end.

Fixpoint falls (bs : list bool) : nat :=
  match bs with
  | [] => 0
  | b :: tl =>
      (match tl with
       | b' :: _ => if b && negb b' then 1 else 0
       | [] => 0
       end + falls tl)%nat
  end.

(** ** The stages of an instance *)

(** What holds of every world an instance can reach: before mounting
    nothing has been built; afterwards either no observer observes
    anything, or the one observer built by the effect does, and then the
    instance is mounted, hidden, with no timer set. *)
Definition reachable_inv (w : World) : Prop :=
  (phase w = Initial ->
     observers w = [] /\ visible w = false /\ timers w = [] /\
     timer_seq w = 0%nat) /\
  (disconnected w \/
   (visible w = false /\ timers w = [] /\ timer_seq w = 0%nat /\
    phase w = Attached /\
    effect_cleanup w = Some (Disconnect 0%nat) /\
    exists o, observers w = [o])).

(** A mounted instance that holds no observer and no timer, its flag
    being [b]. *)
Definition inert (b : bool) (w : World) : Prop :=
  observers w = [] /\ timers w = [] /\ timer_seq w = 0%nat /\
  phase w <> Initial /\ visible w = b.

(** The world of an instance that observes its container [el] and has not
    met a qualifying entry yet. *)
Definition pending (p : RevealProp) (el : Element) (t : Z) : World :=
  {| visible := false; ref_current := Some el; phase := Attached;
     effect_cleanup := Some (Disconnect 0%nat);
     observers := [Reveal_observer p el];
     timers := []; timer_seq := 0%nat; now := t |}.

(** Events that leave such an instance waiting: time passing, and batches
    in which no entry qualifies. *)
Definition idle (ev : Event) : bool :=
  match ev with
  | Mount | Elapse _ => true
  | Intersect _ es => forallb (fun e => negb (isIntersecting e)) es
  | Unmount => false
  end.

(** The world of an instance whose first qualifying batch came at [t0],
    and whose timers are all due at [D]: nothing is observed any more;
    while the instance is mounted, before [D] the flag is down and a timer
    is pending, and from [D] on the flag is up, unless the clock still
    shows [t0] and the timers set at [t0] wait for the event loop's next
    turn. *)
Definition firing (t0 D : Z) (w : World) : Prop :=
  disconnected w /\
  Forall (fun tm => due tm = D) (timers w) /\
  phase w <> Initial /\
  (phase w = Attached ->
     (now w < D -> visible w = false /\ timers w <> []) /\
     (D <= now w -> visible w = true \/ (now w = t0 /\ timers w <> []))).

(** ** What is on the screen *)

(** The classes of a [className], as the browser reads it: the words
    between spaces. *)
Fixpoint words_from (cur : string) (s : string) : list string :=
  match s with
  | EmptyString => [cur]
  | String c s' =>
      if Ascii.eqb c " "%char then cur :: words_from "" s'
      else words_from (cur ++ String c "")%string s'
  end.

Definition classList (s : string) : list string :=
  List.filter (fun c => negb (String.eqb c "")) (words_from "" s).

(** The two visual states, as the utility classes that produce them. *)
Definition hidden_state (d : Div) : Prop :=
  In "opacity-0" (classList (div_className d)) /\
  In "translate-y-3" (classList (div_className d)).

Definition resting_state (d : Div) : Prop :=
  In "opacity-100" (classList (div_className d)) /\
  In "translate-y-0" (classList (div_className d)).

(** ** Concrete instances *)

Module Scenario.
(** A browser with both facilities and no reduced-motion preference. *)
Definition browser : Window :=
  {| matchMedia := Some (fun _ => {| matches := false |});
     IntersectionObserver_defined := true |}.

(** A browser whose user asked for reduced motion. *)
Definition calm_browser : Window :=
  {| matchMedia := Some (fun _ => {| matches := true |});
     IntersectionObserver_defined := true |}.

(** An environment that lacks [IntersectionObserver]. *)
Definition no_observer : Window :=
  {| matchMedia := Some (fun _ => {| matches := false |});
     IntersectionObserver_defined := false |}.

Definition page : Host := {| window := browser; container := Some 7%nat |}.
Definition calm : Host := {| window := calm_browser; container := Some 7%nat |}.
Definition bare : Host := {| window := no_observer; container := Some 7%nat |}.

(** A renderer that creates no DOM node. *)
Definition headless : Host := {| window := browser; container := None |}.

(** [<Reveal delay={80}>] and [<Reveal>]. *)
Definition reveal80 : RevealProp :=
  {| children := 0%nat; className := None; delay := Some 80 |}.
Definition reveal0 : RevealProp :=
  {| children := 0%nat; className := None; delay := None |}.

(** The container with 25%, 0% and 30% of its area in view. *)
Definition in25 : IntersectionObserverEntry :=
  {| target := 7%nat; isIntersecting := true; intersectionRatio := 0.25 |}.
Definition out0 : IntersectionObserverEntry :=
  {| target := 7%nat; isIntersecting := false; intersectionRatio := 0 |}.
Definition in30 : IntersectionObserverEntry :=
  {| target := 7%nat; isIntersecting := true; intersectionRatio := 0.3 |}.
End Scenario.

(** * The rest of the page *)

(** ** [Card] *)

(** [Card] (source lines 126-132): a [div] whose classes are two fixed
    groups and the caller's [className], put together by [cn]. *)
Record CardProps := {
  card_children : ReactNode;
  card_className : option string
}.

Definition Card_render (p : CardProps) : Div :=
  {| div_className :=
       cn [ CString "rounded-2xl border border-gray-200 bg-white shadow-sm";
            CString "transition-transform duration-200 hover:-translate-y-0.5 hover:shadow-md";
            CString (default "" (card_className p)) ];
     div_children := card_children p |}.

(** ** [Skills] *)

(** An icon element: the component and the [className] it is given. *)
Record Icon := {
  icon_component : string;
  icon_className : option string
}.

Definition icon (name : string) : Icon :=
  {| icon_component := name; icon_className := None |}.

(** The table [skillIcons] (source lines 41-54), by its own keys. *)
Definition skillIcons : gmap string Icon :=
  list_to_map
    [ ("JavaScript", icon "IoLogoJavascript");
      ("TypeScript", icon "BiLogoTypescript");
      ("Angular", icon "FaAngular");
      ("React", icon "FaReact");
      ("React Native", icon "FaReact");
      ("Node.js", icon "FaNodeJs");
      ("Ionic (Capacitor/Cordova)", icon "IoLogoIonic");
      ("PostgreSQL", icon "BiLogoPostgresql");
      ("API Integration",
       {| icon_component := "Workflow";
          icon_className := Some "w-5 h-5 text-black-600" |});
      ("Xcode", icon "SiXcode");
      ("Android Studio", icon "IoLogoAndroid");
      ("Postman", icon "SiPostman") ].

(** The names [Skills] lists (source lines 245-258). *)
Definition Skills_names : list string :=
  [ "JavaScript"; "TypeScript"; "Angular"; "React"; "React Native";
    "Node.js"; "Ionic (Capacitor/Cordova)"; "API Integration"; "Xcode";
    "Android Studio"; "Postman"; "PostgreSQL" ].

(** [skillIcons[skill] ?? <Code className="w-5 h-5 text-violet-600" />]. *)
Definition skill_icon (skill : string) : Icon :=
  default {| icon_component := "Code";
             icon_className := Some "w-5 h-5 text-violet-600" |}
          (skillIcons !! skill).

(** One tile of the grid (source lines 258-271): the [Reveal] is keyed by
    the name and delayed by 50 ms per position; inside are the icon and the
    name. *)
Record SkillTile := {
  tile_key : string;
  tile_delay : Z;
  tile_icon : Icon;
  tile_label : string
}.

Definition Skills_tiles : list SkillTile :=
  imap (fun i skill =>
          {| tile_key := skill;
             tile_delay := Z.of_nat i * 50;
             tile_icon := skill_icon skill;
             tile_label := skill |})
       Skills_names.

(** The props of a tile's [<Reveal key={skill} delay={i * 50}>], its
    content being opaque. *)
Definition tile_props (content : ReactNode) (t : SkillTile) : RevealProp :=
  {| children := content; className := None; delay := Some (tile_delay t) |}.

(** ** Two instances side by side *)

(** Two instances that differ in their delay only, the first having the
    shorter one, taken through the same events: they are in the same phase
    at the same time with the same things observed; the first is visible
    if the second is; and while the first is hidden, each timer of the
    second has a timer of the first that is due no later. *)
Definition ahead (w1 w2 : World) : Prop :=
  phase w1 = phase w2 /\
  now w1 = now w2 /\
  ref_current w1 = ref_current w2 /\
  effect_cleanup w1 = effect_cleanup w2 /\
  Forall2 (fun o1 o2 =>
             obs_targets o1 = obs_targets o2 /\
             timeout_ms (obs_delay o1) <= timeout_ms (obs_delay o2))
          (observers w1) (observers w2) /\
  (visible w2 = true -> visible w1 = true) /\
  (phase w1 = Initial -> observers w2 = [] /\ timers w2 = []) /\
  (phase w1 = Attached -> visible w1 = false ->
   forall t2, In t2 (timers w2) ->
     exists t1, In t1 (timers w1) /\ due t1 <= due t2).

(** What every observer of an instance looks like: built by the effect of
    that instance, and observing its container or nothing. *)
Definition own_observer (h : Host) (p : RevealProp) (o : IntersectionObserver)
    : Prop :=
  obs_delay o = delay_of p /\
  obs_init o = {| threshold := 0.2 |} /\
  (obs_targets o = [] \/
   exists el, container h = Some el /\ obs_targets o = [el]).

(** * Properties *)

(** ** Reasoning about histories *)

Section Histories.
Variables (h : Host) (p : RevealProp).

Lemma run_nil w : run h p [] w = (Normal tt, w).
Proof. reflexivity. Qed.

Lemma run_cons ev evs w :
  run h p (ev :: evs) w =
  match step h p ev w with
  | (Normal _, w') => run h p evs w'
  | (Throw e, w') => (Throw e, w')
  end.
Proof. reflexivity. Qed.

Lemma exec_run_cons ev evs w :
  returns (step h p ev) w = true ->
  exec (run h p (ev :: evs)) w = exec (run h p evs) (exec (step h p ev) w).
Proof.
  unfold exec, returns. rewrite run_cons.
  destruct (step h p ev w) as [[[]|e] w']; simpl; [reflexivity | discriminate].
Qed.

(** A property every step keeps holds at the end of every history... *)
Lemma run_invariant (P : World -> Prop) :
  (forall ev w, P w -> P (exec (step h p ev) w)) ->
  forall evs w, P w -> P (exec (run h p evs) w).
Proof.
  intros Hstep evs. induction evs as [|ev evs IH]; intros w Hw; [exact Hw|].
  unfold exec. rewrite run_cons.
  specialize (Hstep ev w Hw). unfold exec in Hstep.
  destruct (step h p ev w) as [[[]|e] w']; simpl in *; [|exact Hstep].
  apply IH, Hstep.
Qed.

(** ... and all along it. *)
Lemma history_invariant (P : World -> Prop) :
  (forall ev w, P w -> P (exec (step h p ev) w)) ->
  forall evs w, P w -> Forall P (history h p evs w).
Proof.
  intros Hstep evs. induction evs as [|ev evs IH]; intros w Hw; simpl.
  - constructor; [exact Hw | constructor].
  - constructor; [exact Hw|].
    specialize (Hstep ev w Hw). unfold exec in Hstep.
    destruct (step h p ev w) as [[[]|e] w']; simpl in *.
    + apply IH, Hstep.
    + constructor; [exact Hstep | constructor].
Qed.

(** A history throws only if one of its steps does. *)
Lemma run_returns (P : World -> Prop) :
  (forall ev w, P w -> P (exec (step h p ev) w)) ->
  (forall ev w, P w -> returns (step h p ev) w = true) ->
  forall evs w, P w -> returns (run h p evs) w = true.
Proof.
  intros Hstep Hret evs. induction evs as [|ev evs IH]; intros w Hw; [reflexivity|].
  unfold returns. rewrite run_cons.
  specialize (Hstep ev w Hw). specialize (Hret ev w Hw).
  unfold exec in Hstep. unfold returns in Hret.
  destruct (step h p ev w) as [[[]|e] w']; simpl in *; [|discriminate].
  apply IH, Hstep.
Qed.
End Histories.

(** ** The callback *)

Lemma clear_targets_twice k (os : list IntersectionObserver) :
  alter clear_targets k (alter clear_targets k os) = alter clear_targets k os.
Proof.
  revert k. induction os as [|o os IH]; intros [|k]; simpl; try reflexivity.
  f_equal. apply IH.
Qed.

(** What one call of the callback does: nothing if no entry qualifies;
    otherwise one timer per qualifying entry, and the observer is
    disconnected. *)
Lemma Reveal_callback_spec d k es w :
  Reveal_callback d k es w =
  (Normal tt,
   match qualifying es with
   | [] => w
   | _ :: _ =>
       with_observers (alter clear_targets k (observers w))
         (with_timers
            (timers w ++ new_timers (timer_seq w) (length (qualifying es))
                                    (now w + timeout_ms d))
            (timer_seq w + length (qualifying es))%nat w)
   end).
Proof.
  unfold Reveal_callback. revert w.
  induction es as [|e es IH]; intros w; [reflexivity|].
  cbn [forEach qualifying List.filter]. unfold bind at 1.
  destruct (isIntersecting e) eqn:He.
  - unfold bind at 1. cbn [setTimeout disconnect].
    rewrite IH. f_equal. fold (qualifying es).
    destruct w as [v r ph c os ts n t]; cbn.
    destruct (qualifying es) as [|e' q]; cbn.
    + unfold with_observers, with_timers; cbn. do 2 f_equal. lia.
    + unfold with_observers, with_timers; cbn.
      rewrite clear_targets_twice, <- app_assoc. cbn.
      do 2 f_equal. lia.
  - cbn [ret]. rewrite IH. reflexivity.
Qed.

(** ** Timers *)

Lemma run_handlers_spec (l : list Timer) w :
  forEach l (fun tm => run_handler (handler tm)) w =
  (Normal tt,
   match l, phase w with
   | _ :: _, Attached => with_visible true w
   | _, _ => w
   end).
Proof.
  revert w. induction l as [|tm l IH]; intros w; [reflexivity|].
  cbn [forEach]. unfold bind.
  destruct (handler tm). cbn [run_handler]. unfold setVisible.
  destruct w as [v r ph c os ts n t]; cbn.
  destruct ph; rewrite IH; cbn; destruct l; reflexivity.
Qed.

Lemma fire_due_spec w :
  fire_due w =
  (Normal tt,
   let w0 := with_timers
               (List.filter (fun tm => negb (is_due (now w) tm)) (timers w))
               (timer_seq w) w in
   match List.filter (is_due (now w)) (timers w), phase w with
   | _ :: _, Attached => with_visible true w0
   | _, _ => w0
   end).
Proof. unfold fire_due. rewrite run_handlers_spec. reflexivity. Qed.

Lemma filter_due_all (D t : Z) (ts : list Timer) :
  Forall (fun tm => due tm = D) ts -> D <= t ->
  List.filter (is_due t) ts = ts /\
  List.filter (fun tm => negb (is_due t tm)) ts = [].
Proof.
  intros Hall Hle. induction Hall as [|tm ts Htm _ IH]; [split; reflexivity|].
  destruct IH as [IH1 IH2].
  assert (Hd : is_due t tm = true) by (apply Z.leb_le; lia).
  cbn. rewrite Hd, IH1, IH2. split; reflexivity.
Qed.

Lemma filter_due_none (D t : Z) (ts : list Timer) :
  Forall (fun tm => due tm = D) ts -> t < D ->
  List.filter (is_due t) ts = [] /\
  List.filter (fun tm => negb (is_due t tm)) ts = ts.
Proof.
  intros Hall Hlt. induction Hall as [|tm ts Htm _ IH]; [split; reflexivity|].
  destruct IH as [IH1 IH2].
  assert (Hd : is_due t tm = false) by (apply Z.leb_gt; lia).
  cbn. rewrite Hd, IH1, IH2. split; reflexivity.
Qed.

Lemma timeout_ms_in_range (ms : Z) :
  0 <= ms < 2 ^ 31 -> timeout_ms ms = ms.
Proof.
  unfold timeout_ms, to_long.
  change (2 ^ 31) with 2147483648. change (2 ^ 32) with 4294967296.
  intros Hms. rewrite Z.mod_small by lia. lia.
Qed.

Lemma new_timers_due seq n D :
  Forall (fun tm => due tm = D) (new_timers seq n D).
Proof.
  revert seq. induction n as [|n IH]; intros seq; cbn; constructor; auto.
Qed.

(** ** Steps *)

Section Steps.
Variables (h : Host) (p : RevealProp).

(** No step but [Mount] can throw. *)
Lemma step_returns ev w :
  ev <> Mount -> returns (step h p ev) w = true.
Proof.
  intros Hev. destruct ev as [|k es|ms|]; [congruence| | |]; unfold returns; cbn [step].
  - unfold deliver. destruct (observers w !! k) as [o|]; [|reflexivity].
    destruct (obs_targets o); [reflexivity|].
    rewrite Reveal_callback_spec. reflexivity.
  - unfold elapse. rewrite fire_due_spec. reflexivity.
  - unfold unmount. destruct (phase w); try reflexivity.
    destruct (effect_cleanup w) as [[k]|]; reflexivity.
Qed.

Lemma mount_not_initial w :
  phase w <> Initial -> mount h p w = (Normal tt, w).
Proof. unfold mount. destruct (phase w); [congruence | reflexivity..]. Qed.

Lemma deliver_disconnected k es w :
  disconnected w -> deliver k es w = (Normal tt, w).
Proof.
  intros Hd. unfold deliver.
  destruct (observers w !! k) as [o|] eqn:Hk; [|reflexivity].
  unfold disconnected in Hd. rewrite Forall_lookup in Hd.
  rewrite (Hd k o Hk). reflexivity.
Qed.

Lemma clear_targets_disconnected k (os : list IntersectionObserver) :
  Forall (fun o => obs_targets o = []) os ->
  Forall (fun o => obs_targets o = []) (alter clear_targets k os).
Proof.
  intros Hos. revert k.
  induction Hos as [|o os Ho Hos IH]; intros [|k]; cbn; constructor; auto.
Qed.

(** The setter is only ever called with [true]: no step resets the flag. *)
Lemma step_visible_mono ev w :
  visible w = true -> visible (exec (step h p ev) w) = true.
Proof.
  intros Hv. unfold exec. destruct ev as [|k es|ms|]; cbn [step].
  - unfold mount. destruct (phase w) eqn:Hph; [|exact Hv..].
    unfold Reveal_effect.
    destruct (truthy (prefersReduced (window h))); [reflexivity|].
    cbn. destruct (container h) as [el|]; cbn; [|exact Hv].
    unfold new_IntersectionObserver.
    destruct (IntersectionObserver_defined (window h)); cbn; exact Hv.
  - unfold deliver. destruct (observers w !! k) as [o|]; [|exact Hv].
    destruct (obs_targets o); [exact Hv|].
    rewrite Reveal_callback_spec. cbn. destruct (qualifying es); exact Hv.
  - unfold elapse. rewrite fire_due_spec. cbn.
    destruct (List.filter _ _); [exact Hv|]. destruct (phase w); cbn; auto.
  - unfold unmount. destruct (phase w); try exact Hv.
    destruct (effect_cleanup w) as [[k]|]; cbn; exact Hv.
Qed.

(** Once detached, an instance keeps its flag whatever happens. *)
Lemma step_detached ev w :
  phase w = Detached ->
  phase (exec (step h p ev) w) = Detached /\
  visible (exec (step h p ev) w) = visible w.
Proof.
  intros Hph. unfold exec. destruct ev as [|k es|ms|]; cbn [step].
  - rewrite mount_not_initial by congruence. auto.
  - unfold deliver. destruct (observers w !! k) as [o|]; [|auto].
    destruct (obs_targets o); [auto|].
    rewrite Reveal_callback_spec. cbn. destruct (qualifying es); auto.
  - unfold elapse. rewrite fire_due_spec. cbn. rewrite Hph.
    destruct (List.filter _ _); auto.
  - unfold unmount. rewrite Hph. auto.
Qed.
End Steps.

(** ** The flag over a history *)

Lemma all_true_flat (bs : list bool) :
  Forall (fun b => b = true) bs -> rises bs = 0%nat /\ falls bs = 0%nat.
Proof.
  induction 1 as [|b bs Hb Hbs [IH1 IH2]]; [split; reflexivity|].
  subst b. cbn [rises falls]. rewrite IH1, IH2.
  destruct Hbs as [|b' bs' Hb' _]; [split; reflexivity|].
  subst b'. split; reflexivity.
Qed.

Lemma history_unfold h p evs w :
  exists tl, history h p evs w = w :: tl.
Proof. destruct evs; eexists; reflexivity. Qed.

Lemma history_visible_stays h p evs w :
  visible w = true ->
  Forall (fun b => b = true) (map visible (history h p evs w)).
Proof.
  intros Hv. apply Forall_map.
  apply (history_invariant h p (fun w => visible w = true)); [|exact Hv].
  intros ev w'. apply step_visible_mono.
Qed.

Lemma history_latch h p evs w :
  (rises (map visible (history h p evs w)) <= 1)%nat /\
  falls (map visible (history h p evs w)) = 0%nat.
Proof.
  destruct (visible w) eqn:Hv.
  { destruct (all_true_flat _ (history_visible_stays h p evs w Hv)) as [-> ->].
    split; [lia | reflexivity]. }
  revert w Hv. induction evs as [|ev evs IH]; intros w Hv.
  { cbn. split; [lia | reflexivity]. }
  cbn [history map].
  assert (Hnext : forall w', visible w' = true \/
              ((rises (map visible (history h p evs w')) <= 1)%nat /\
               falls (map visible (history h p evs w')) = 0%nat) ->
            (rises (visible w :: map visible (history h p evs w')) <= 1)%nat /\
            falls (visible w :: map visible (history h p evs w')) = 0%nat).
  { intros w' Hw'.
    destruct (history_unfold h p evs w') as [tl Htl].
    destruct (visible w') eqn:Hv'.
    - destruct (all_true_flat _ (history_visible_stays h p evs w' Hv')) as [H1 H2].
      cbn [rises falls]. rewrite H1, H2, Htl, Hv. cbn. rewrite Hv'.
      split; [lia | reflexivity].
    - destruct Hw' as [?|[H1 H2]]; [congruence|].
      cbn [rises falls]. rewrite H2, Htl, Hv. cbn [map]. rewrite Hv'.
      rewrite Htl in H1. cbn [map] in H1. rewrite Hv' in H1.
      cbn in *. split; [lia | reflexivity]. }
  destruct (step h p ev w) as [[[]|e] w'] eqn:Hstep.
  - apply Hnext. destruct (visible w') eqn:Hv'; [left; reflexivity|].
    right. apply IH, Hv'.
  - cbn. rewrite Hv. destruct (visible w'); cbn; split; lia.
Qed.

(** ** What holds of every world an instance can reach *)

Lemma reachable_inv_fresh : reachable_inv fresh.
Proof.
  split; [intros _; repeat split; reflexivity|].
  left. constructor.
Qed.

Lemma reachable_inv_step h p ev w :
  reachable_inv w -> reachable_inv (exec (step h p ev) w).
Proof.
  intros Hw. pose proof Hw as [Hini Hobs]. unfold exec.
  destruct ev as [|k es|ms|]; cbn [step].
  - (* Mount *)
    unfold mount. destruct (phase w) eqn:Hph; [|exact Hw..].
    destruct (Hini eq_refl) as (Hos & Hv & Hts & Hseq). clear Hw.
    destruct w as [v r ph c os ts n t]; cbn in *; subst.
    unfold Reveal_effect.
    destruct (truthy (prefersReduced (window h))); cbn.
    { split; [discriminate|]. left. constructor. }
    destruct (container h) as [el|]; cbn.
    2:{ split; [discriminate|]. left. constructor. }
    unfold new_IntersectionObserver.
    destruct (IntersectionObserver_defined (window h)); cbn.
    + split; [discriminate|]. right. repeat split; eauto.
    + split; [discriminate|]. left. constructor.
  - (* Intersect *)
    destruct Hobs as [Hd|(Hv & Hts & Hseq & Hph & Hc & o & Ho)].
    { rewrite deliver_disconnected by exact Hd. split; [exact Hini|left; exact Hd]. }
    clear Hini. unfold deliver. rewrite Ho.
    destruct k as [|k]; cbn [lookup list_lookup]; [|exact Hw].
    destruct (obs_targets o) eqn:Hto; [exact Hw|].
    rewrite Reveal_callback_spec. cbn [snd].
    destruct (qualifying es); [exact Hw|].
    split; [cbn; congruence|].
    left. unfold disconnected. cbn. rewrite Ho. cbn.
    constructor; [reflexivity | constructor].
  - (* Elapse *)
    unfold elapse. rewrite fire_due_spec. cbn.
    split.
    + intros Hph.
      assert (Hphw : phase w = Initial).
      { destruct (List.filter _ _); [exact Hph|].
        destruct (phase w) eqn:E; cbn in Hph; congruence. }
      destruct (Hini Hphw) as (Hos & Hv & Hts & Hseq).
      rewrite Hts, Hphw. cbn. auto.
    + destruct Hobs as [Hd|(Hv & Hts & Hseq & Hph & Hc & o & Ho)].
      * left. unfold disconnected in *.
        destruct (List.filter _ _); [exact Hd|].
        destruct (phase w); exact Hd.
      * right. rewrite Hts. cbn. repeat split; eauto.
  - (* Unmount *)
    unfold unmount. destruct (phase w) eqn:Hph; [exact Hw| |exact Hw].
    split.
    { destruct (effect_cleanup w) as [[k]|]; cbn; discriminate. }
    left. destruct Hobs as [Hd|(Hv & Hts & Hseq & _ & Hc & o & Ho)].
    + unfold disconnected in *.
      destruct (effect_cleanup w) as [[k]|]; cbn; [|exact Hd].
      apply clear_targets_disconnected, Hd.
    + rewrite Hc. unfold disconnected. cbn. rewrite Ho. cbn.
      constructor; [reflexivity | constructor].
Qed.

Lemma reachable_visible_disconnected w :
  reachable_inv w -> visible w = true -> disconnected w.
Proof. intros [_ [Hd|(Hv & _)]] Hvis; [exact Hd | congruence]. Qed.

(** C2. The flag [visible] of an instance is a one-way latch: along any
    history of the instance it goes from [false] to [true] at most once
    and never from [true] to [false]; and once it is [true] no observer of
    the instance observes anything any more, so nothing can arm the
    instance again. *)
Theorem visible_one_way_latch (h : Host) (p : RevealProp) (evs : list Event) :
  (rises (map visible (history h p evs fresh)) <= 1)%nat /\
  falls (map visible (history h p evs fresh)) = 0%nat /\
  Forall (fun w => visible w = true -> disconnected w) (history h p evs fresh).
Proof.
  destruct (history_latch h p evs fresh) as [Hr Hf].
  repeat split; [exact Hr | exact Hf |].
  eapply Forall_impl.
  - apply (history_invariant h p reachable_inv);
      [apply reachable_inv_step | apply reachable_inv_fresh].
  - intros w Hw. apply reachable_visible_disconnected, Hw.
Qed.

(** ** Mounting *)

(** The four ways mounting can go. *)
Lemma mount_spec h p w :
  phase w = Initial -> observers w = [] ->
  mount h p w =
  if truthy (prefersReduced (window h)) then
    (Normal tt,
     with_cleanup None
       (with_visible true (with_ref (container h) (with_phase Attached w))))
  else
    match container h with
    | None => (Normal tt, with_cleanup None (with_ref None (with_phase Attached w)))
    | Some el =>
        if IntersectionObserver_defined (window h) then
          (Normal tt,
           with_cleanup (Some (Disconnect 0%nat))
             (with_observers [Reveal_observer p el]
                (with_ref (Some el) (with_phase Attached w))))
        else
          (Throw (ReferenceError "IntersectionObserver"),
           with_ref (Some el) (with_phase Attached w))
    end.
Proof.
  intros Hph Hos. unfold mount. rewrite Hph.
  destruct w as [v r ph c os ts n t]; cbn in *; subst.
  unfold Reveal_effect.
  destruct (truthy (prefersReduced (window h))); [reflexivity|].
  cbn. destruct (container h) as [el|]; [|reflexivity].
  cbn. unfold new_IntersectionObserver.
  destruct (IntersectionObserver_defined (window h)); reflexivity.
Qed.

Lemma step_inert h p b ev w :
  inert b w ->
  inert b (exec (step h p ev) w) /\ returns (step h p ev) w = true.
Proof.
  intros (Hos & Hts & Hseq & Hph & Hv).
  unfold exec, returns. destruct ev as [|k es|ms|]; cbn [step].
  - rewrite mount_not_initial by exact Hph. repeat split; auto.
  - unfold deliver. rewrite Hos. cbn. repeat split; auto.
  - unfold elapse. rewrite fire_due_spec. cbn. rewrite Hts. cbn.
    repeat split; auto.
  - unfold unmount. destruct (phase w) eqn:E; [congruence| |].
    + destruct (effect_cleanup w) as [[k]|]; cbn; rewrite ?Hos;
        repeat split; auto; discriminate.
    + cbn. repeat split; auto. congruence.
Qed.

Lemma history_inert h p b evs w :
  inert b w ->
  Forall (inert b) (history h p evs w) /\ returns (run h p evs) w = true.
Proof.
  intros Hw. split.
  - apply history_invariant; [|exact Hw].
    intros ev w' Hw'. apply (step_inert h p b ev w' Hw').
  - apply (run_returns h p (inert b)); [| |exact Hw].
    + intros ev w' Hw'. apply (step_inert h p b ev w' Hw').
    + intros ev w' Hw'. apply (step_inert h p b ev w' Hw').
Qed.

Lemma history_mount h p evs :
  history h p (Mount :: evs) fresh =
  fresh :: match mount h p fresh with
           | (Normal _, w') => history h p evs w'
           | (Throw _, w') => [w']
           end.
Proof. reflexivity. Qed.

(** C3. An instance mounted while the reduced-motion preference is active
    has [visible = true] as soon as it is mounted, and at no later point
    of its life is there an observer (or a timer) for it. *)
Theorem reduced_motion_visible_unobserved (h : Host) (p : RevealProp)
    (evs : list Event) :
  prefersReduced (window h) = Some true ->
  returns (run h p (Mount :: evs)) fresh = true /\
  visible (exec (mount h p) fresh) = true /\
  Forall (fun w => visible w = true /\ observers w = [] /\ timer_seq w = 0%nat)
         (tail (history h p (Mount :: evs) fresh)).
Proof.
  intros Hred.
  assert (Hm : mount h p fresh =
               (Normal tt,
                with_cleanup None
                  (with_visible true
                     (with_ref (container h) (with_phase Attached fresh))))).
  { rewrite mount_spec by reflexivity. rewrite Hred. reflexivity. }
  assert (Hin : inert true (exec (mount h p) fresh)).
  { unfold exec. rewrite Hm. repeat split; cbn; congruence. }
  destruct (history_inert h p true evs _ Hin) as [Hall Hret].
  split; [|split].
  - unfold returns. rewrite run_cons. cbn [step]. rewrite Hm.
    unfold returns, exec in Hret. rewrite Hm in Hret. exact Hret.
  - unfold exec. rewrite Hm. reflexivity.
  - rewrite history_mount. cbn [tail]. unfold exec in Hall.
    destruct (mount h p fresh) as [[[]|e] w']; [|discriminate].
    eapply Forall_impl; [exact Hall|].
    intros w (Hos & Hts & Hseq & Hph & Hv). auto.
Qed.

(** C8. An instance mounted while the reduced-motion preference is not
    active has [visible = false] when the effect has run (be it to its
    end or to an exception). *)
Theorem not_reduced_hidden_after_mount (h : Host) (p : RevealProp) :
  truthy (prefersReduced (window h)) = false ->
  visible (exec (mount h p) fresh) = false.
Proof.
  intros Hred. unfold exec. rewrite mount_spec by reflexivity. rewrite Hred.
  destruct (container h) as [el|]; [|reflexivity].
  destruct (IntersectionObserver_defined (window h)); reflexivity.
Qed.

(** C10. Without reduced motion, an effect that finds [ref.current] null
    returns at once, having changed nothing; the instance then never has
    an observer or a timer, and [visible] is [false] in every world of
    every history of it. *)
Theorem null_ref_stays_hidden (h : Host) (p : RevealProp) (evs : list Event) :
  truthy (prefersReduced (window h)) = false ->
  container h = None ->
  (forall w, ref_current w = None ->
     Reveal_effect (window h) (delay_of p) w = (Normal None, w)) /\
  returns (run h p (Mount :: evs)) fresh = true /\
  Forall (fun w => visible w = false /\ observers w = [] /\
                   timers w = [] /\ timer_seq w = 0%nat)
         (history h p (Mount :: evs) fresh).
Proof.
  intros Hred Hnode.
  assert (Hm : mount h p fresh =
               (Normal tt, with_cleanup None (with_ref None (with_phase Attached fresh)))).
  { rewrite mount_spec by reflexivity. rewrite Hred, Hnode. reflexivity. }
  assert (Hin : inert false (exec (mount h p) fresh)).
  { unfold exec. rewrite Hm. repeat split; cbn; congruence. }
  destruct (history_inert h p false evs _ Hin) as [Hall Hret].
  split; [|split].
  - intros w Hw. unfold Reveal_effect. rewrite Hred.
    unfold bind, get_ref_current. rewrite Hw. reflexivity.
  - unfold returns. rewrite run_cons. cbn [step]. rewrite Hm.
    unfold returns, exec in Hret. rewrite Hm in Hret. exact Hret.
  - rewrite history_mount. unfold exec in Hall.
    destruct (mount h p fresh) as [[[]|e] w']; [|discriminate].
    constructor; [repeat split; reflexivity|].
    eapply Forall_impl; [exact Hall|].
    intros w (Hos & Hts & Hseq & Hph & Hv). auto.
Qed.

(** ** Waiting for the first intersection *)

Lemma qualifying_none es :
  forallb (fun e => negb (isIntersecting e)) es = true -> qualifying es = [].
Proof.
  induction es as [|e es IH]; [reflexivity|]. cbn.
  destruct (isIntersecting e); cbn; [discriminate | exact IH].
Qed.

Lemma qualifying_some es :
  existsb isIntersecting es = true -> qualifying es <> [].
Proof.
  induction es as [|e es IH]; [discriminate|]. cbn.
  destruct (isIntersecting e); cbn; [discriminate | exact IH].
Qed.

Lemma mount_pending h p el :
  truthy (prefersReduced (window h)) = false ->
  container h = Some el ->
  IntersectionObserver_defined (window h) = true ->
  mount h p fresh = (Normal tt, pending p el 0).
Proof.
  intros Hred Hnode Hio. rewrite mount_spec by reflexivity.
  rewrite Hred, Hnode, Hio. reflexivity.
Qed.

Lemma deliver_pending p el t k es :
  deliver k es (pending p el t) =
  (Normal tt,
   match k, qualifying es with
   | O, _ :: _ =>
       with_observers [clear_targets (Reveal_observer p el)]
         (with_timers (new_timers 0 (length (qualifying es)) (t + timeout_ms (delay_of p)))
                      (length (qualifying es)) (pending p el t))
   | _, _ => pending p el t
   end).
Proof.
  unfold deliver. destruct k as [|k]; cbn [pending observers lookup list_lookup].
  - cbn [Reveal_observer obs_targets obs_delay]. rewrite Reveal_callback_spec.
    destruct (qualifying es); reflexivity.
  - reflexivity.
Qed.

Lemma step_pending_idle h p el t ev :
  idle ev = true ->
  exists t', t <= t' /\ step h p ev (pending p el t) = (Normal tt, pending p el t').
Proof.
  destruct ev as [|k es|ms|]; cbn [idle step]; intros Hidle.
  - exists t. split; [lia | reflexivity].
  - exists t. split; [lia|]. rewrite deliver_pending.
    rewrite (qualifying_none es Hidle). destruct k; reflexivity.
  - exists (t + Z.of_N ms). split; [lia | reflexivity].
  - discriminate.
Qed.

Lemma run_pending_idle h p el evs : forall t,
  forallb idle evs = true ->
  exists t', t <= t' /\ run h p evs (pending p el t) = (Normal tt, pending p el t').
Proof.
  induction evs as [|ev evs IH]; intros t Hidle.
  - exists t. split; [lia | reflexivity].
  - cbn in Hidle. apply andb_prop in Hidle as [Hev Hevs].
    destruct (step_pending_idle h p el t ev Hev) as (t1 & Ht1 & Hstep).
    destruct (IH t1 Hevs) as (t2 & Ht2 & Hrun).
    exists t2. split; [lia|]. rewrite run_cons, Hstep. exact Hrun.
Qed.

Lemma run_app h p evs1 evs2 w :
  run h p (evs1 ++ evs2) w =
  match run h p evs1 w with
  | (Normal _, w') => run h p evs2 w'
  | (Throw e, w') => (Throw e, w')
  end.
Proof.
  revert w. induction evs1 as [|ev evs1 IH]; intros w; [reflexivity|].
  cbn [app]. rewrite !run_cons.
  destruct (step h p ev w) as [[[]|e] w']; [apply IH | reflexivity].
Qed.

(** A mounted, observing instance after any number of idle events. *)
Lemma run_mount_idle h p el pre :
  truthy (prefersReduced (window h)) = false ->
  container h = Some el ->
  IntersectionObserver_defined (window h) = true ->
  forallb idle pre = true ->
  exists t, run h p (Mount :: pre) fresh = (Normal tt, pending p el t).
Proof.
  intros Hred Hnode Hio Hidle.
  destruct (run_pending_idle h p el pre 0 Hidle) as (t & _ & Hrun).
  exists t. rewrite run_cons. cbn [step].
  rewrite (mount_pending h p el Hred Hnode Hio). exact Hrun.
Qed.

(** ** Detaching *)

Lemma run_detached_visible h p evs w :
  phase w = Detached ->
  visible (exec (run h p evs) w) = visible w.
Proof.
  intros Hph.
  apply (run_invariant h p
           (fun w' => phase w' = Detached /\ visible w' = visible w));
    [|split; [exact Hph | reflexivity]].
  intros ev w' [Hph' Hv']. destruct (step_detached h p ev w' Hph') as [H1 H2].
  split; [exact H1 | congruence].
Qed.

(** C6. An instance that observes its container and is unmounted before
    any qualifying entry arrived: unmounting returns normally, the one
    observer stops observing, [visible] is [false] as before, the timers,
    the timer count, the clock and the observer's options are as before
    (React for its part clears the reference and retires the instance),
    and [visible] remains [false] whatever happens afterwards. *)
Theorem detach_before_intersection (h : Host) (p : RevealProp) (el : Element)
    (pre post : list Event) :
  truthy (prefersReduced (window h)) = false ->
  container h = Some el ->
  IntersectionObserver_defined (window h) = true ->
  forallb idle pre = true ->
  let w := exec (run h p (Mount :: pre)) fresh in
  observers w = [Reveal_observer p el] /\
  visible w = false /\
  unmount w =
    (Normal tt,
     {| visible := visible w;
        ref_current := None;
        phase := Detached;
        effect_cleanup := effect_cleanup w;
        observers := [clear_targets (Reveal_observer p el)];
        timers := timers w;
        timer_seq := timer_seq w;
        now := now w |}) /\
  disconnected (exec unmount w) /\
  visible (exec (run h p post) (exec unmount w)) = false.
Proof.
  intros Hred Hnode Hio Hidle w. subst w.
  destruct (run_mount_idle h p el pre Hred Hnode Hio Hidle) as [t Hrun].
  assert (Hw : exec (run h p (Mount :: pre)) fresh = pending p el t)
    by (unfold exec; rewrite Hrun; reflexivity).
  rewrite Hw.
  split; [reflexivity|]. split; [reflexivity|]. split; [reflexivity|].
  split.
  - unfold exec, disconnected. cbn. constructor; [reflexivity | constructor].
  - rewrite run_detached_visible; reflexivity.
Qed.

(** ** From the first intersection to the flag *)

Lemma firing_step h p t0 D ev w :
  firing t0 D w ->
  firing t0 D (exec (step h p ev) w) /\ returns (step h p ev) w = true.
Proof.
  intros Hw. pose proof Hw as (Hd & Hdue & Hph & Hvis).
  unfold exec, returns. destruct ev as [|k es|ms|]; cbn [step].
  - rewrite mount_not_initial by exact Hph. split; [exact Hw | reflexivity].
  - rewrite deliver_disconnected by exact Hd. split; [exact Hw | reflexivity].
  - unfold elapse. rewrite fire_due_spec. cbn [fst snd]. split; [|reflexivity].
    cbn [with_now now timers phase timer_seq].
    assert (Hms : 0 <= Z.of_N ms) by lia.
    destruct (Z_lt_le_dec (now w + Z.of_N ms) D) as [Hlt|Hle].
    + destruct (filter_due_none D _ _ Hdue Hlt) as [-> ->].
      refine (conj Hd (conj Hdue (conj Hph _))).
      intros Hatt. split.
      * intros _. apply (Hvis Hatt). lia.
      * cbn. intros Hge. lia.
    + destruct (filter_due_all D _ _ Hdue Hle) as [-> ->].
      destruct (timers w) as [|tm ts] eqn:Hts.
      * refine (conj Hd (conj (Forall_nil_2 _) (conj Hph _))).
        intros Hatt. split; [cbn; intros Hlt; lia|].
        intros _. left. destruct (Z_lt_le_dec (now w) D) as [Hlt|Hge].
        -- destruct (proj1 (Hvis Hatt) Hlt) as [_ Hne]. congruence.
        -- destruct (proj2 (Hvis Hatt) Hge) as [Hv|[_ Hne]];
             [exact Hv | congruence].
      * destruct (phase w) eqn:Hphw; [congruence| |].
        -- refine (conj Hd (conj (Forall_nil_2 _) (conj _ _)));
             [cbn; congruence|].
           intros _. split; [cbn; intros Hlt; lia | left; reflexivity].
        -- refine (conj Hd (conj (Forall_nil_2 _) (conj _ _)));
             cbn; congruence.
  - unfold unmount. destruct (phase w) eqn:Hphw; [congruence| |].
    + split; [|destruct (effect_cleanup w) as [[k]|]; reflexivity].
      destruct (effect_cleanup w) as [[k]|]; cbn.
      * refine (conj _ (conj Hdue (conj _ _))).
        -- apply clear_targets_disconnected, Hd.
        -- cbn. discriminate.
        -- cbn. discriminate.
      * refine (conj Hd (conj Hdue (conj _ _))); cbn; discriminate.
    + split; [exact Hw | reflexivity].
Qed.

Lemma firing_after_batch p el t es :
  qualifying es <> [] ->
  firing t (t + timeout_ms (delay_of p))
         (exec (deliver 0%nat es) (pending p el t)).
Proof.
  intros Hq. unfold exec. rewrite deliver_pending.
  destruct (qualifying es) as [|e q]; [congruence|]. cbn [snd].
  refine (conj _ (conj _ (conj _ _))).
  - unfold disconnected. cbn. constructor; [reflexivity | constructor].
  - cbn [with_observers with_timers timers]. apply new_timers_due.
  - cbn. discriminate.
  - intros _. split.
    + intros _. split; [reflexivity | cbn; discriminate].
    + intros _. right. split; [reflexivity | cbn; discriminate].
Qed.

Lemma firing_run h p t0 D evs w :
  firing t0 D w ->
  firing t0 D (exec (run h p evs) w) /\ returns (run h p evs) w = true.
Proof.
  intros Hw. split.
  - apply (run_invariant h p (firing t0 D)); [|exact Hw].
    intros ev w' Hw'. apply (firing_step h p t0 D ev w' Hw').
  - apply (run_returns h p (firing t0 D)); [| |exact Hw].
    + intros ev w' Hw'. apply (firing_step h p t0 D ev w' Hw').
    + intros ev w' Hw'. apply (firing_step h p t0 D ev w' Hw').
Qed.

Lemma firing_elapse_visible t0 D ms w :
  firing t0 D w -> phase w = Attached -> D <= now w + Z.of_N ms ->
  visible (exec (elapse ms) w) = true.
Proof.
  intros (Hd & Hdue & Hph & Hvis) Hatt Hle.
  unfold exec, elapse. rewrite fire_due_spec. cbn [snd].
  cbn [with_now now timers phase timer_seq].
  destruct (filter_due_all D _ _ Hdue Hle) as [-> ->].
  destruct (timers w) as [|tm ts] eqn:Hts.
  - cbn. destruct (Z_lt_le_dec (now w) D) as [Hlt|Hge].
    + destruct (proj1 (Hvis Hatt) Hlt) as [_ Hne]. congruence.
    + destruct (proj2 (Hvis Hatt) Hge) as [Hv|[_ Hne]]; [exact Hv | congruence].
  - rewrite Hatt. reflexivity.
Qed.

(** ** The claims about the timer *)



Lemma elapse_phase_now ms w :
  phase (exec (elapse ms) w) = phase w /\
  now (exec (elapse ms) w) = now w + Z.of_N ms.
Proof.
  unfold exec, elapse. rewrite fire_due_spec.
  destruct w as [v r ph c os ts n t]. cbn.
  destruct (List.filter _ ts); [split; reflexivity|].
  destruct ph; split; reflexivity.
Qed.

Lemma no_qualifying_entry es :
  existsb isIntersecting es = false ->
  forallb (fun e => negb (isIntersecting e)) es = true.
Proof.
  induction es as [|e es IH]; [reflexivity|]. cbn.
  destruct (isIntersecting e); cbn; [discriminate | exact IH].
Qed.

(** A batch and then some time, for an instance that was waiting: it is
    visible exactly if an entry of the batch was flagged as intersecting
    and the time is at least the delay. *)
Lemma reveal_after_batch h p el t es ms :
  visible (exec (run h p [Intersect 0%nat es; Elapse ms]) (pending p el t)) = true
  <->
  existsb isIntersecting es = true /\ timeout_ms (delay_of p) <= Z.of_N ms.
Proof.
  destruct (existsb isIntersecting es) eqn:Hq.
  - set (w1 := exec (deliver 0%nat es) (pending p el t)).
    assert (Hrun : exec (run h p [Intersect 0%nat es; Elapse ms]) (pending p el t)
                   = exec (elapse ms) w1).
    { subst w1.
      rewrite !exec_run_cons by (apply step_returns; discriminate).
      reflexivity. }
    assert (Hw1 : phase w1 = Attached /\ now w1 = t).
    { subst w1. unfold exec. rewrite deliver_pending.
      destruct (qualifying es); split; reflexivity. }
    destruct Hw1 as [Hatt Hnow].
    pose proof (firing_after_batch p el t es (qualifying_some es Hq)) as Hfire.
    fold w1 in Hfire. rewrite Hrun.
    destruct (Z_lt_le_dec (Z.of_N ms) (timeout_ms (delay_of p))) as [Hlt|Hle].
    + destruct (firing_step h p t _ (Elapse ms) w1 Hfire) as [Hf _].
      cbn [step] in Hf. destruct (elapse_phase_now ms w1) as [Hph' Hnow'].
      destruct Hf as (_ & _ & _ & Hvis).
      rewrite Hph' in Hvis.
      destruct (proj1 (Hvis Hatt)) as [Hv _]; [rewrite Hnow', Hnow; lia|].
      rewrite Hv. split; [discriminate | intros [_ H]; lia].
    + rewrite (firing_elapse_visible t _ ms w1 Hfire Hatt)
        by (rewrite Hnow; lia).
      split; [intros _; split; [reflexivity | exact Hle] | reflexivity].
  - destruct (run_pending_idle h p el [Intersect 0%nat es; Elapse ms] t)
      as (t' & _ & Hrun).
    { cbn. rewrite (no_qualifying_entry es Hq). reflexivity. }
    unfold exec. rewrite Hrun. cbn.
    split; [discriminate | intros [H _]; discriminate].
Qed.

Lemma reported_batch th es :
  Forall (reported_at th) es ->
  existsb isIntersecting es = true <->
  Exists (fun e => (th <= intersectionRatio e)%Q) es.
Proof.
  induction 1 as [|e es He _ IH]; cbn.
  - split; [discriminate | intros H; inversion H].
  - unfold reported_at in He. split.
    + intros Hor. apply orb_prop in Hor as [Hi|Hi].
      * left. apply He, Hi.
      * right. apply IH, Hi.
    + intros Hex. inversion Hex as [? ? Hh|? ? Ht]; subst.
      * apply He in Hh. rewrite Hh. reflexivity.
      * apply IH in Ht. rewrite Ht. apply orb_true_r.
Qed.

(** C7. Mounted without reduced motion, an instance has exactly one
    observer, observing its container with threshold 0.2.  A batch
    delivered to it sets one timer for each of its entries flagged as
    intersecting, and triggers the transition exactly when one of its
    entries is so flagged: the instance is visible after the batch and some
    time exactly if the batch has such an entry and the time is at least
    the delay.  For entries the browser reports at the threshold the
    observer was built with, that is exactly when an entry has at least 20%
    of the element's area in view. *)
Theorem observes_container_at_threshold (h : Host) (p : RevealProp)
    (el : Element) :
  truthy (prefersReduced (window h)) = false ->
  container h = Some el ->
  IntersectionObserver_defined (window h) = true ->
  let w := exec (mount h p) fresh in
  observers w =
    [{| obs_delay := delay_of p;
        obs_init := {| threshold := 0.2 |};
        obs_targets := [el] |}] /\
  (forall es, timer_seq (exec (deliver 0%nat es) w) = length (qualifying es)) /\
  (forall es ms,
     visible (exec (run h p [Intersect 0%nat es; Elapse ms]) w) = true <->
     existsb isIntersecting es = true /\
     timeout_ms (delay_of p) <= Z.of_N ms) /\
  (forall o es ms,
     observers w !! 0%nat = Some o ->
     Forall (reported_at (threshold (obs_init o))) es ->
     (visible (exec (run h p [Intersect 0%nat es; Elapse ms]) w) = true <->
      Exists (fun e => (20 # 100 <= intersectionRatio e)%Q) es /\
      timeout_ms (delay_of p) <= Z.of_N ms)).
Proof.
  intros Hred Hnode Hio w. subst w.
  assert (Hw : exec (mount h p) fresh = pending p el 0)
    by (unfold exec; rewrite (mount_pending h p el Hred Hnode Hio); reflexivity).
  rewrite Hw.
  split; [reflexivity|]. split; [|split].
  - intros es. unfold exec. rewrite deliver_pending. cbn.
    destruct (qualifying es); reflexivity.
  - intros es ms. apply reveal_after_batch.
  - intros o es ms Ho Hrep. cbn in Ho. injection Ho as <-.
    cbn [Reveal_observer obs_init threshold] in Hrep.
    rewrite reveal_after_batch, (reported_batch _ es Hrep).
    assert (Hth : forall e : IntersectionObserverEntry,
               (0.2 <= intersectionRatio e)%Q <->
               (20 # 100 <= intersectionRatio e)%Q).
    { intros e. split; intros H; (eapply Qle_trans; [|exact H]); discriminate. }
    split; intros [Hex Hms]; (split; [|exact Hms]);
      (eapply List.Exists_impl; [|exact Hex]); intros e; apply Hth.
Qed.

(** Once an instance has set a timer, no step sets another: the batch that
    set the first one has disconnected the observer. *)
Lemma timer_count_settles h p ev w :
  reachable_inv w -> timer_seq w <> 0%nat ->
  timer_seq (exec (step h p ev) w) = timer_seq w.
Proof.
  intros [Hini Hobs] Hseq.
  assert (Hph : phase w <> Initial).
  { intros Hph. destruct (Hini Hph) as (_ & _ & _ & H0). congruence. }
  assert (Hd : disconnected w).
  { destruct Hobs as [Hd|(_ & _ & H0 & _)]; [exact Hd | congruence]. }
  unfold exec. destruct ev as [|k es|ms|]; cbn [step].
  - rewrite mount_not_initial by exact Hph. reflexivity.
  - rewrite deliver_disconnected by exact Hd. reflexivity.
  - unfold elapse. rewrite fire_due_spec. cbn.
    destruct (List.filter _ _); [reflexivity|]. destruct (phase w); reflexivity.
  - unfold unmount. destruct (phase w); try reflexivity.
    destruct (effect_cleanup w) as [[k]|]; reflexivity.
Qed.

(** C1 (the code departs from the claim).  The container enters the view,
    leaves it and enters it again before the browser calls the callback:
    the batch holds two qualifying entries, [forEach] goes on after the
    first [disconnect], and [setTimeout] is called twice. *)
Theorem two_timers_for_one_batch :
  let w := exec (run Scenario.page Scenario.reveal80
                   [Mount;
                    Intersect 0%nat [Scenario.in25; Scenario.out0; Scenario.in30]])
                fresh in
  timer_seq w = 2%nat /\
  timers w = [ {| timer_id := 0; due := 80; handler := SetVisibleTrue |};
               {| timer_id := 1; due := 80; handler := SetVisibleTrue |} ] /\
  disconnected w.
Proof.
  cbv zeta. split; [reflexivity|]. split; [reflexivity|].
  unfold disconnected. cbn. constructor; [reflexivity | constructor].
Qed.

(** ** The claims about failure *)

(** C5 (the claim fails): where [IntersectionObserver] does not exist, the
    effect of an instance with a container and no reduced motion throws a
    [ReferenceError], and [visible] is still [false]. *)
Lemma mount_without_observer_throws :
  mount Scenario.bare Scenario.reveal80 fresh =
  (Throw (ReferenceError "IntersectionObserver"),
   {| visible := false; ref_current := Some 7%nat; phase := Attached;
      effect_cleanup := None; observers := []; timers := [];
      timer_seq := 0%nat; now := 0 |}).
Proof. reflexivity. Qed.

(** C5, amended.  The effect has no handler of its own.  Mounting throws
    exactly when the effect reaches the constructor (no reduced motion, a
    container) and the constructor does not exist; what escapes is the
    [ReferenceError], with [visible] still [false] and nothing observed or
    scheduled.  Without the constructor, a mount that returns leaves
    [visible] true exactly under reduced motion.  No other step throws. *)
Theorem mount_throws_iff_observer_missing (h : Host) (p : RevealProp) :
  (returns (mount h p) fresh = false <->
   truthy (prefersReduced (window h)) = false /\
   container h <> None /\
   IntersectionObserver_defined (window h) = false) /\
  (returns (mount h p) fresh = false ->
   fst (mount h p fresh) = Throw (ReferenceError "IntersectionObserver") /\
   visible (exec (mount h p) fresh) = false /\
   observers (exec (mount h p) fresh) = [] /\
   timers (exec (mount h p) fresh) = []) /\
  (IntersectionObserver_defined (window h) = false ->
   returns (mount h p) fresh = true ->
   visible (exec (mount h p) fresh) = truthy (prefersReduced (window h))) /\
  (forall ev w, ev <> Mount -> returns (step h p ev) w = true).
Proof.
  unfold returns, exec. rewrite mount_spec by reflexivity.
  assert (Hsteps : forall ev w, ev <> Mount ->
                     match fst (step h p ev w) with
                     | Normal _ => true
                     | Throw _ => false
                     end = true)
    by (intros ev w Hev; apply (step_returns h p ev w Hev)).
  destruct (truthy (prefersReduced (window h))) eqn:Hred.
  { cbn. repeat split; try discriminate; try exact Hsteps.
    intros (H & _); discriminate. }
  destruct (container h) as [el|] eqn:Hnode.
  2:{ cbn. repeat split; try discriminate; try exact Hsteps.
      intros (_ & H & _); congruence. }
  destruct (IntersectionObserver_defined (window h)) eqn:Hio.
  { cbn. repeat split; try discriminate; try exact Hsteps.
    intros (_ & _ & H); discriminate. }
  cbn. repeat split; try discriminate; try exact Hsteps.
Qed.

(** The amended claim at the environment without the constructor. *)
Lemma mount_throws_iff_observer_missing_witness :
  fst (mount Scenario.bare Scenario.reveal80 fresh)
    = Throw (ReferenceError "IntersectionObserver") /\
  visible (exec (mount Scenario.bare Scenario.reveal80) fresh) = false.
Proof.
  destruct (mount_throws_iff_observer_missing Scenario.bare Scenario.reveal80)
    as (_ & H & _).
  destruct (H eq_refl) as (H1 & H2 & _). split; [exact H1 | exact H2].
Defined.

(** ** Rendering *)

(** C9. What an instance renders is determined by its props and the
    current value of [visible]: the class string is the fixed transition
    classes, then the classes of the hidden state when [visible] is
    [false] and those of the resting state when it is [true], then the
    caller's [className] if it is not empty; so a hidden instance carries
    the hidden state's classes and a visible one the resting state's, and
    for an instance without classes of its own each state is carried in
    that case only. *)
Theorem render_reflects_visible (p : RevealProp) (w : World) :
  let d := Reveal_render p (visible w) in
  div_className d =
    ("transform transition-all duration-500 ease-out will-change-[opacity,transform]"
     ++ " "
     ++ (if visible w then "opacity-100 translate-y-0" else "opacity-0 translate-y-3")
     ++ match className p with
        | Some (String c s) => " " ++ String c s
        | _ => ""
        end)%string /\
  div_children d = children p /\
  (if visible w then resting_state d else hidden_state d) /\
  (className_of p = "" ->
   (hidden_state d <-> visible w = false) /\
   (resting_state d <-> visible w = true)).
Proof.
  cbv zeta. split; [|split; [reflexivity|split]].
  - unfold Reveal_render, className_of.
    destruct (className p) as [[|c s]|], (visible w); reflexivity.
  - unfold Reveal_render, className_of, hidden_state, resting_state.
    destruct (className p) as [[|c s]|], (visible w); vm_compute;
      split; repeat (first [left; reflexivity | right]).
  - intros Hcls. unfold Reveal_render, hidden_state, resting_state.
    rewrite Hcls.
    destruct (visible w); vm_compute; split; split;
      try discriminate; try reflexivity;
      try (intros _; split; repeat (first [left; reflexivity | right]));
      intros [H1 H2]; exfalso;
      repeat (destruct H1 as [H1|H1]; [discriminate H1|]); exact H1.
Qed.

(** ** The theorems at concrete instances *)

(** C3 at an instance mounted under reduced motion, then shown a
    qualifying batch and left for a second. *)
Lemma reduced_motion_visible_unobserved_witness :
  visible (exec (mount Scenario.calm Scenario.reveal0) fresh) = true /\
  Forall (fun w => visible w = true /\ observers w = [] /\ timer_seq w = 0%nat)
         (tail (history Scenario.calm Scenario.reveal0
                  [Mount; Intersect 0%nat [Scenario.in25]; Elapse 1000] fresh)).
Proof.
  destruct (reduced_motion_visible_unobserved Scenario.calm Scenario.reveal0
              [Intersect 0%nat [Scenario.in25]; Elapse 1000] eq_refl)
    as (_ & H1 & H2).
  split; [exact H1 | exact H2].
Defined.

(** C8 at the scenario's instance. *)
Lemma not_reduced_hidden_after_mount_witness :
  visible (exec (mount Scenario.page Scenario.reveal80) fresh) = false.
Proof.
  apply (not_reduced_hidden_after_mount Scenario.page Scenario.reveal80).
  reflexivity.
Defined.

(** C10 at an instance without a DOM node, left for a second. *)
Lemma null_ref_stays_hidden_witness :
  Forall (fun w => visible w = false /\ observers w = [] /\
                   timers w = [] /\ timer_seq w = 0%nat)
         (history Scenario.headless Scenario.reveal80
            [Mount; Intersect 0%nat [Scenario.in25]; Elapse 1000] fresh).
Proof.
  destruct (null_ref_stays_hidden Scenario.headless Scenario.reveal80
              [Intersect 0%nat [Scenario.in25]; Elapse 1000] eq_refl eq_refl)
    as (_ & _ & H).
  exact H.
Defined.

(** C7 at the scenario's instance: the entry with 25% in view, which the
    browser flags as intersecting, makes it visible 80 ms later. *)
Lemma observes_container_at_threshold_witness :
  observers (exec (mount Scenario.page Scenario.reveal80) fresh) =
    [{| obs_delay := 80; obs_init := {| threshold := 0.2 |};
        obs_targets := [7%nat] |}] /\
  visible (exec (run Scenario.page Scenario.reveal80
                   [Intersect 0%nat [Scenario.in25]; Elapse 80])
                (exec (mount Scenario.page Scenario.reveal80) fresh)) = true.
Proof.
  destruct (observes_container_at_threshold Scenario.page Scenario.reveal80
              7%nat eq_refl eq_refl eq_refl)
    as (H1 & _ & _ & H2).
  split; [exact H1|].
  apply (H2 (Reveal_observer Scenario.reveal80 7%nat) [Scenario.in25] 80%N);
    [reflexivity | |].
  - constructor; [|constructor].
    unfold reported_at. split; [intros _; discriminate | reflexivity].
  - split; [left; discriminate | vm_compute; discriminate].
Defined.

(** C6 at the scenario's instance, unmounted after half a second in which
    the container stayed out of view. *)
Lemma detach_before_intersection_witness :
  disconnected
    (exec unmount
       (exec (run Scenario.page Scenario.reveal80
                [Mount; Elapse 200; Intersect 0%nat [Scenario.out0]; Elapse 300])
             fresh)) /\
  visible
    (exec (run Scenario.page Scenario.reveal80
             [Intersect 0%nat [Scenario.in25]; Elapse 1000])
       (exec unmount
          (exec (run Scenario.page Scenario.reveal80
                   [Mount; Elapse 200; Intersect 0%nat [Scenario.out0]; Elapse 300])
                fresh))) = false.
Proof.
  destruct (detach_before_intersection Scenario.page Scenario.reveal80 7%nat
              [Elapse 200; Intersect 0%nat [Scenario.out0]; Elapse 300]
              [Intersect 0%nat [Scenario.in25]; Elapse 1000]
              eq_refl eq_refl eq_refl eq_refl)
    as (_ & _ & _ & H1 & H2).
  split; [exact H1 | exact H2].
Defined.

(** * More about the page *)

(** ** [cn] *)

Lemma filter_Boolean_app (l1 l2 : list ClassValue) :
  List.filter Boolean (l1 ++ l2) = List.filter Boolean l1 ++ List.filter Boolean l2.
Proof.
  induction l1 as [|v l1 IH]; [reflexivity|].
  cbn. destruct (Boolean v); cbn; rewrite IH; reflexivity.
Qed.

(** X1. [cn] ignores [undefined], [null], [false] and the empty string
    wherever they stand among its arguments. *)
Theorem cn_ignores_falsy (l1 l2 : list ClassValue) :
  cn (l1 ++ CUndefined :: l2) = cn (l1 ++ l2) /\
  cn (l1 ++ CNull :: l2) = cn (l1 ++ l2) /\
  cn (l1 ++ CFalse :: l2) = cn (l1 ++ l2) /\
  cn (l1 ++ CString "" :: l2) = cn (l1 ++ l2).
Proof.
  unfold cn. rewrite !filter_Boolean_app. repeat split; reflexivity.
Qed.

Lemma concat_nonempty (s : string) (ss : list string) :
  s <> ""%string -> String.concat " " (s :: ss) <> ""%string.
Proof.
  intros Hs. destruct s as [|c s]; [congruence|].
  destruct ss; cbn; discriminate.
Qed.

(** X2. [cn] returns the empty string exactly when none of its arguments
    is truthy. *)
Theorem cn_empty_iff (l : list ClassValue) :
  cn l = ""%string <-> Forall (fun v => Boolean v = false) l.
Proof.
  unfold cn. induction l as [|v l IH].
  - split; [constructor | reflexivity].
  - cbn [List.filter]. destruct (Boolean v) eqn:Hv.
    + split.
      * intros Hcn. exfalso.
        destruct v as [s| | |]; try discriminate. cbn [map to_string] in Hcn.
        revert Hcn. apply concat_nonempty.
        cbn in Hv. intros ->. discriminate.
      * intros Hall. inversion Hall; congruence.
    + rewrite IH. split; [intros H; constructor; assumption|].
      intros Hall. inversion Hall; assumption.
Qed.

(** The words of two strings joined by a space. *)
Lemma words_from_join (cur a b : string) :
  words_from cur (a ++ String " " b) = words_from cur a ++ words_from "" b.
Proof.
  revert cur. induction a as [|c a IH]; intros cur; [reflexivity|].
  simpl. destruct (Ascii.eqb c " "); rewrite IH; reflexivity.
Qed.

Lemma filter_app_list {A} (f : A -> bool) (l1 l2 : list A) :
  List.filter f (l1 ++ l2) = List.filter f l1 ++ List.filter f l2.
Proof.
  induction l1 as [|x l1 IH]; [reflexivity|].
  cbn. destruct (f x); cbn; rewrite IH; reflexivity.
Qed.

Lemma classList_join (a b : string) :
  classList (a ++ String " " b) = classList a ++ classList b.
Proof. unfold classList. rewrite words_from_join. apply filter_app_list. Qed.

Lemma classList_concat (ss : list string) :
  classList (String.concat " " ss) = flat_map classList ss.
Proof.
  induction ss as [|s ss IH]; [reflexivity|].
  destruct ss as [|s' ss].
  - cbn. rewrite app_nil_r. reflexivity.
  - change (String.concat " " (s :: s' :: ss))
      with (s ++ String " " (String.concat " " (s' :: ss)))%string.
    rewrite classList_join, IH. reflexivity.
Qed.

Lemma classList_cn (l : list ClassValue) :
  classList (cn l) =
  flat_map (fun v => classList (to_string v)) (List.filter Boolean l).
Proof.
  unfold cn. rewrite classList_concat.
  induction (List.filter Boolean l) as [|v l' IH]; [reflexivity|].
  cbn. rewrite IH. reflexivity.
Qed.

(** X3. [cn] neither adds nor loses a class: the classes of its result are
    those of its truthy arguments, in the order of the arguments. *)
Theorem cn_classes (l : list ClassValue) :
  classList (cn l) =
  flat_map (fun v => match v with
                     | CString s => classList s
                     | _ => []
                     end) l.
Proof.
  rewrite classList_cn. induction l as [|v l IH]; [reflexivity|].
  cbn [List.filter flat_map]. destruct v as [s| | |]; cbn [Boolean].
  - destruct (String.eqb_spec s ""); cbn [negb flat_map to_string].
    + subst s. rewrite IH. reflexivity.
    + rewrite IH. reflexivity.
  - exact IH.
  - exact IH.
  - exact IH.
Qed.

(** ** [Card] and [Reveal] on the screen *)

Lemma classList_of_CString_list (a b c : string) :
  classList (cn [CString a; CString b; CString c]) =
  classList a ++ classList b ++ classList c.
Proof.
  rewrite classList_cn. cbn [List.filter Boolean].
  destruct (String.eqb_spec a ""), (String.eqb_spec b ""), (String.eqb_spec c "");
    subst; cbn [negb flat_map to_string];
    change (classList "") with (@nil string);
    rewrite ?app_nil_r, ?app_nil_l; reflexivity.
Qed.

(** X4. The classes of a [Card] are its own nine, then the caller's, in the
    caller's order, whatever the caller passes. *)
Theorem Card_classes (p : CardProps) :
  classList (div_className (Card_render p)) =
  [ "rounded-2xl"; "border"; "border-gray-200"; "bg-white"; "shadow-sm";
    "transition-transform"; "duration-200"; "hover:-translate-y-0.5";
    "hover:shadow-md" ]%string
  ++ classList (default "" (card_className p)).
Proof.
  unfold Card_render. cbn [div_className].
  rewrite classList_of_CString_list. rewrite app_assoc. f_equal.
Qed.

(** X5. The classes of a [Reveal] container are the five transition
    classes, then the two of the hidden state when [visible] is [false] or
    the two of the resting state when it is [true], then the caller's,
    whatever the caller passes. *)
Theorem Reveal_classes (p : RevealProp) (vis : bool) :
  classList (div_className (Reveal_render p vis)) =
  [ "transform"; "transition-all"; "duration-500"; "ease-out";
    "will-change-[opacity,transform]" ]%string
  ++ (if vis then ["opacity-100"; "translate-y-0"]
      else ["opacity-0"; "translate-y-3"])%string
  ++ classList (className_of p).
Proof.
  unfold Reveal_render. cbn [div_className].
  rewrite classList_of_CString_list. destruct vis; reflexivity.
Qed.

(** ** More about the life of an instance *)

(** What a batch does to any world: nothing, or, when the observer
    observes something and an entry qualifies, the timers and the
    disconnection. *)
Lemma deliver_cases k es w :
  deliver k es w = (Normal tt, w) \/
  exists o,
    observers w !! k = Some o /\ obs_targets o <> [] /\ qualifying es <> [] /\
    deliver k es w =
    (Normal tt,
     with_observers (alter clear_targets k (observers w))
       (with_timers
          (timers w ++ new_timers (timer_seq w) (length (qualifying es))
                                  (now w + timeout_ms (obs_delay o)))
          (timer_seq w + length (qualifying es))%nat w)).
Proof.
  unfold deliver. destruct (observers w !! k) as [o|] eqn:Hk; [|left; reflexivity].
  destruct (obs_targets o) as [|el els] eqn:Hto; [left; reflexivity|].
  rewrite Reveal_callback_spec.
  destruct (qualifying es) as [|e q] eqn:Hq; [left; reflexivity|].
  right. exists o. rewrite Hto. repeat split; discriminate.
Qed.

(** X6. A batch in which no entry is flagged as intersecting changes
    nothing, whatever the state of the instance and whichever observer it
    is addressed to: the element leaving the view hides nothing and sets no
    timer. *)
Theorem quiet_batch_changes_nothing (h : Host) (p : RevealProp)
    (k : ObserverId) (es : list IntersectionObserverEntry) (w : World) :
  forallb (fun e => negb (isIntersecting e)) es = true ->
  step h p (Intersect k es) w = (Normal tt, w).
Proof.
  intros Hq. cbn [step].
  destruct (deliver_cases k es w) as [H|(o & _ & _ & Hne & _)]; [exact H|].
  rewrite (qualifying_none es Hq) in Hne. congruence.
Qed.

Lemma quiet_batch_changes_nothing_witness :
  step Scenario.page Scenario.reveal80
       (Intersect 0%nat [Scenario.out0; Scenario.out0])
       (pending Scenario.reveal80 7%nat 120) =
  (Normal tt, pending Scenario.reveal80 7%nat 120).
Proof.
  apply (quiet_batch_changes_nothing Scenario.page Scenario.reveal80 0%nat
           [Scenario.out0; Scenario.out0] (pending Scenario.reveal80 7%nat 120)).
  reflexivity.
Defined.

(** With nothing observed and the instance past mounting, no step sets a
    timer. *)
Lemma timer_seq_disconnected h p ev w :
  disconnected w -> phase w <> Initial ->
  timer_seq (exec (step h p ev) w) = timer_seq w.
Proof.
  intros Hd Hph. unfold exec. destruct ev as [|k es|ms|]; cbn [step].
  - rewrite mount_not_initial by exact Hph. reflexivity.
  - rewrite deliver_disconnected by exact Hd. reflexivity.
  - unfold elapse. rewrite fire_due_spec. cbn.
    destruct (List.filter _ _); [reflexivity|]. destruct (phase w); reflexivity.
  - unfold unmount. destruct (phase w); try reflexivity.
    destruct (effect_cleanup w) as [[k]|]; reflexivity.
Qed.

Lemma run_after_first_batch h p el pre es post :
  truthy (prefersReduced (window h)) = false ->
  container h = Some el ->
  IntersectionObserver_defined (window h) = true ->
  forallb idle pre = true ->
  exists t,
    exec (run h p (Mount :: pre)) fresh = pending p el t /\
    exec (run h p (Mount :: pre ++ Intersect 0%nat es :: post)) fresh =
    exec (run h p post) (exec (deliver 0%nat es) (pending p el t)).
Proof.
  intros Hred Hnode Hio Hidle.
  destruct (run_mount_idle h p el pre Hred Hnode Hio Hidle) as [t Hpre].
  exists t. split; [unfold exec; rewrite Hpre; reflexivity|].
  change (Mount :: pre ++ Intersect 0%nat es :: post)
    with ((Mount :: pre) ++ Intersect 0%nat es :: post).
  unfold exec at 1. rewrite run_app, Hpre, run_cons. cbn [step].
  unfold exec. rewrite deliver_pending. reflexivity.
Qed.

(** X7. All the timers of an instance come from one batch: after the
    first batch with a qualifying entry, whatever follows, [setTimeout] has
    been called once for each qualifying entry of that batch and never
    again, and every timer still pending is due at the instant of that
    batch plus the delay. *)
Theorem timers_come_from_one_batch (h : Host) (p : RevealProp) (el : Element)
    (pre post : list Event) (es : list IntersectionObserverEntry) :
  truthy (prefersReduced (window h)) = false ->
  container h = Some el ->
  IntersectionObserver_defined (window h) = true ->
  forallb idle pre = true ->
  existsb isIntersecting es = true ->
  let t0 := now (exec (run h p (Mount :: pre)) fresh) in
  let w := exec (run h p (Mount :: pre ++ Intersect 0%nat es :: post)) fresh in
  timer_seq w = length (qualifying es) /\
  Forall (fun tm => due tm = t0 + timeout_ms (delay_of p)) (timers w).
Proof.
  intros Hred Hnode Hio Hidle Hq t0 w.
  destruct (run_after_first_batch h p el pre es post Hred Hnode Hio Hidle)
    as (t & Hpre & Hrun).
  subst t0 w. rewrite Hpre, Hrun. cbn [pending now].
  pose proof (firing_after_batch p el t es (qualifying_some es Hq)) as Hfire.
  assert (Hseq : timer_seq (exec (deliver 0%nat es) (pending p el t))
                 = length (qualifying es)).
  { unfold exec. rewrite deliver_pending.
    destruct (qualifying es) eqn:E; [|reflexivity].
    exfalso. apply (qualifying_some es Hq E). }
  set (D := t + timeout_ms (delay_of p)) in *.
  assert (Hinv : firing t D (exec (run h p post)
                                  (exec (deliver 0%nat es) (pending p el t))) /\
                 timer_seq (exec (run h p post)
                                 (exec (deliver 0%nat es) (pending p el t)))
                 = length (qualifying es)).
  { apply (run_invariant h p
             (fun w => firing t D w /\ timer_seq w = length (qualifying es)));
      [|split; assumption].
    intros ev w' [Hf Hs]. split.
    - apply (firing_step h p t D ev w' Hf).
    - destruct Hf as (Hd & _ & Hph & _).
      rewrite (timer_seq_disconnected h p ev w' Hd Hph). exact Hs. }
  destruct Hinv as [(_ & Hdue & _) Hs]. split; [exact Hs | exact Hdue].
Qed.

Lemma timers_come_from_one_batch_witness :
  timer_seq
    (exec (run Scenario.page Scenario.reveal80
             [Mount; Elapse 40;
              Intersect 0%nat [Scenario.in25; Scenario.out0; Scenario.in30];
              Intersect 0%nat [Scenario.in25]; Elapse 10]) fresh)
  = 2%nat.
Proof.
  destruct (timers_come_from_one_batch Scenario.page Scenario.reveal80 7%nat
              [Elapse 40] [Intersect 0%nat [Scenario.in25]; Elapse 10]
              [Scenario.in25; Scenario.out0; Scenario.in30]
              eq_refl eq_refl eq_refl eq_refl eq_refl) as [H _].
  exact H.
Defined.

Lemma unmount_keeps_timers w :
  timers (exec unmount w) = timers w /\
  timer_seq (exec unmount w) = timer_seq w /\
  visible (exec unmount w) = visible w.
Proof.
  unfold exec, unmount. destruct (phase w); try (repeat split; reflexivity).
  destruct (effect_cleanup w) as [[k]|]; repeat split; reflexivity.
Qed.

Lemma unmount_detaches w :
  phase w = Attached -> phase (exec unmount w) = Detached.
Proof.
  intros Hph. unfold exec, unmount. rewrite Hph.
  destruct (effect_cleanup w) as [[k]|]; reflexivity.
Qed.

(** X8. Unmounting does not cancel a timer.  If the instance is unmounted
    after its first qualifying batch and before the delay has run out, the
    timers that batch set are still pending after the unmount, and the
    instance is never made visible, whatever follows. *)
Theorem unmount_during_delay (h : Host) (p : RevealProp) (el : Element)
    (pre mid post : list Event) (es : list IntersectionObserverEntry) :
  truthy (prefersReduced (window h)) = false ->
  container h = Some el ->
  IntersectionObserver_defined (window h) = true ->
  forallb idle pre = true ->
  existsb isIntersecting es = true ->
  let t0 := now (exec (run h p (Mount :: pre)) fresh) in
  let w := exec (run h p (Mount :: pre ++ Intersect 0%nat es :: mid)) fresh in
  phase w = Attached ->
  now w < t0 + timeout_ms (delay_of p) ->
  timers w <> [] /\
  timers (exec unmount w) = timers w /\
  visible (exec (run h p post) (exec unmount w)) = false.
Proof.
  intros Hred Hnode Hio Hidle Hq t0 w Hatt Hlt.
  destruct (run_after_first_batch h p el pre es mid Hred Hnode Hio Hidle)
    as (t & Hpre & Hrun).
  assert (Ht0 : t0 = t) by (subst t0; rewrite Hpre; reflexivity).
  pose proof (firing_after_batch p el t es (qualifying_some es Hq)) as Hfire.
  destruct (firing_run h p t (t + timeout_ms (delay_of p)) mid _ Hfire)
    as [(_ & _ & _ & Hvis) _].
  fold w in Hrun. rewrite <- Hrun in Hvis. rewrite Ht0 in Hlt.
  destruct (proj1 (Hvis Hatt) Hlt) as [Hv Hts].
  destruct (unmount_keeps_timers w) as (Hkeep & _ & Hvkeep).
  split; [exact Hts|]. split; [exact Hkeep|].
  rewrite run_detached_visible by (apply unmount_detaches, Hatt).
  congruence.
Qed.

Lemma unmount_during_delay_witness :
  timers (exec unmount
            (exec (run Scenario.page Scenario.reveal80
                     [Mount; Intersect 0%nat [Scenario.in25]; Elapse 30]) fresh))
    = [{| timer_id := 0; due := 80; handler := SetVisibleTrue |}] /\
  visible
    (exec (run Scenario.page Scenario.reveal80 [Elapse 100])
       (exec unmount
          (exec (run Scenario.page Scenario.reveal80
                   [Mount; Intersect 0%nat [Scenario.in25]; Elapse 30]) fresh)))
    = false.
Proof.
  destruct (unmount_during_delay Scenario.page Scenario.reveal80 7%nat
              [] [Elapse 30] [Elapse 100] [Scenario.in25]
              eq_refl eq_refl eq_refl eq_refl eq_refl eq_refl eq_refl)
    as (_ & H1 & H2).
  split; [etransitivity; [exact H1 | reflexivity] | exact H2].
Defined.

Lemma own_observer_clear h p k (os : list IntersectionObserver) :
  Forall (own_observer h p) os ->
  Forall (own_observer h p) (alter clear_targets k os).
Proof.
  intros Hos. apply Forall_alter; [exact Hos|].
  intros o _ (Hd & Hi & _). repeat split; [exact Hd | exact Hi | left; reflexivity].
Qed.

Lemma own_observers_step h p ev w :
  reachable_inv w ->
  (length (observers w) <= 1)%nat /\ Forall (own_observer h p) (observers w) ->
  (length (observers (exec (step h p ev) w)) <= 1)%nat /\
  Forall (own_observer h p) (observers (exec (step h p ev) w)).
Proof.
  intros [Hini _] [Hlen Hown]. unfold exec.
  destruct ev as [|k es|ms|]; cbn [step].
  - destruct (phase w) eqn:Hph;
      [|rewrite mount_not_initial by congruence; split; assumption..].
    destruct (Hini eq_refl) as (Hos & _).
    rewrite mount_spec by assumption.
    destruct (truthy (prefersReduced (window h))); [cbn; split; assumption|].
    destruct (container h) as [el|] eqn:Hnode; [|cbn; split; assumption].
    destruct (IntersectionObserver_defined (window h)); [|cbn; split; assumption].
    cbn. split; [lia|].
    constructor; [|constructor].
    repeat split. right. exists el. split; [exact Hnode | reflexivity].
  - destruct (deliver_cases k es w) as [->|(o & _ & _ & _ & ->)];
      [split; assumption|].
    cbn. rewrite length_alter. split; [exact Hlen|].
    apply own_observer_clear, Hown.
  - unfold elapse. rewrite fire_due_spec. cbn.
    destruct (List.filter _ _); [split; assumption|].
    destruct (phase w); split; assumption.
  - unfold unmount. destruct (phase w); try (split; assumption).
    destruct (effect_cleanup w) as [[k]|]; cbn; [|split; assumption].
    rewrite length_alter. split; [exact Hlen|].
    apply own_observer_clear, Hown.
Qed.

(** X9. An instance builds at most one observer in its life; that
    observer has threshold 0.2 and the instance's delay, and observes the
    instance's container or nothing; and whenever the instance is not
    mounted (not yet, or no more) no observer of it observes anything. *)
Theorem observers_of_an_instance (h : Host) (p : RevealProp) (evs : list Event) :
  let w := exec (run h p evs) fresh in
  (length (observers w) <= 1)%nat /\
  Forall (own_observer h p) (observers w) /\
  (phase w = Attached \/ disconnected w).
Proof.
  cbv zeta.
  assert (Hinv : reachable_inv (exec (run h p evs) fresh) /\
                 ((length (observers (exec (run h p evs) fresh)) <= 1)%nat /\
                  Forall (own_observer h p)
                         (observers (exec (run h p evs) fresh)))).
  { apply (run_invariant h p
             (fun w => reachable_inv w /\
                       ((length (observers w) <= 1)%nat /\
                        Forall (own_observer h p) (observers w)))).
    - intros ev w [Hr Ho]. split.
      + apply reachable_inv_step, Hr.
      + apply own_observers_step; assumption.
    - split; [apply reachable_inv_fresh|]. split; [cbn; lia | constructor]. }
  destruct Hinv as [[_ Hobs] [Hlen Hown]].
  split; [exact Hlen|]. split; [exact Hown|].
  destruct Hobs as [Hd|(_ & _ & _ & Hph & _)]; [right; exact Hd | left; exact Hph].
Qed.

(** ** The shorter delay is never the later one *)

Lemma new_timers_In seq n D t :
  In t (new_timers seq n D) -> due t = D.
Proof.
  intros Hin. pose proof (new_timers_due seq n D) as Hall.
  rewrite List.Forall_forall in Hall. apply Hall, Hin.
Qed.

Lemma filter_due_In now_ (ts : list Timer) t :
  In t ts ->
  In t (List.filter (is_due now_) ts) \/
  In t (List.filter (fun tm => negb (is_due now_ tm)) ts).
Proof.
  intros Hin. destruct (is_due now_ t) eqn:Hd.
  - left. apply List.filter_In. split; assumption.
  - right. apply List.filter_In. split; [assumption | rewrite Hd; reflexivity].
Qed.

Section ShorterDelay.
Variables (h : Host) (p1 p2 : RevealProp).
Hypothesis Hdelay : timeout_ms (delay_of p1) <= timeout_ms (delay_of p2).

Lemma ahead_mount w1 w2 :
  ahead w1 w2 ->
  fst (mount h p1 w1) = fst (mount h p2 w2) /\
  ahead (exec (mount h p1) w1) (exec (mount h p2) w2).
Proof.
  intros Ha. pose proof Ha as (Hph & Hnow & Href & Hcl & Hobs & Hvis & Hini & Htim).
  destruct (phase w1) eqn:Hph1.
  2,3: unfold exec; rewrite !mount_not_initial by congruence;
       split; [reflexivity | exact Ha].
  destruct (Hini eq_refl) as [Hos2 Hts2].
  assert (Hos1 : observers w1 = []).
  { rewrite Hos2 in Hobs. inversion Hobs. reflexivity. }
  unfold exec. rewrite !mount_spec by congruence.
  destruct (truthy (prefersReduced (window h))).
  { split; [reflexivity|]. cbn.
    repeat split; cbn; try assumption; try discriminate; try reflexivity. }
  destruct (container h) as [el|].
  2:{ split; [reflexivity|]. cbn.
      repeat split; cbn; try assumption; try discriminate.
      intros _ _ t2 Hin. rewrite Hts2 in Hin. destruct Hin. }
  destruct (IntersectionObserver_defined (window h)).
  - split; [reflexivity|]. cbn.
    repeat split; cbn; try assumption; try discriminate.
    + constructor; [|constructor]. split; [reflexivity | exact Hdelay].
    + intros _ _ t2 Hin. rewrite Hts2 in Hin. destruct Hin.
  - split; [reflexivity|]. cbn.
    repeat split; cbn; try assumption; try discriminate.
    intros _ _ t2 Hin. rewrite Hts2 in Hin. destruct Hin.
Qed.

Lemma ahead_deliver k es w1 w2 :
  ahead w1 w2 ->
  fst (deliver k es w1) = fst (deliver k es w2) /\
  ahead (exec (deliver k es) w1) (exec (deliver k es) w2).
Proof.
  intros Ha. pose proof Ha as (Hph & Hnow & Href & Hcl & Hobs & Hvis & Hini & Htim).
  unfold exec, deliver. unfold ObserverId in *.
  destruct (observers w1 !! k) as [o1|] eqn:Hk1.
  2:{ destruct (observers w2 !! k) as [o2|] eqn:Hk2;
        [|split; [reflexivity | exact Ha]].
      destruct (Forall2_lookup_r _ _ _ _ _ Hobs Hk2) as (o1 & Hk1' & _).
      rewrite Hk1 in Hk1'. discriminate. }
  destruct (Forall2_lookup_l _ _ _ _ _ Hobs Hk1) as (o2 & Hk2 & Hto & Hle).
  rewrite Hk2, <- Hto.
  destruct (obs_targets o1) as [|el els]; [split; [reflexivity | exact Ha]|].
  rewrite !Reveal_callback_spec.
  destruct (qualifying es) as [|e q]; [split; [reflexivity | exact Ha]|].
  split; [reflexivity|]. cbn [snd length].
  refine (conj Hph (conj Hnow (conj Href (conj Hcl (conj _ (conj Hvis (conj _ _))))))).
  - cbn. apply Forall2_alter; [exact Hobs|].
    intros x y _ _ [_ Hxy]. split; [reflexivity | exact Hxy].
  - cbn. intros Hph1. destruct (Hini Hph1) as [Hos2 _].
    rewrite Hos2 in Hk2. discriminate.
  - cbn. intros Hatt Hv1 t2 Hin. apply in_app_or in Hin as [Hin|Hin].
    + destruct (Htim Hatt Hv1 t2 Hin) as (t1 & Hin1 & Hdue).
      exists t1. split; [apply in_or_app; left; exact Hin1 | exact Hdue].
    + apply (new_timers_In (timer_seq w2) (S (length q))) in Hin.
      exists {| timer_id := timer_seq w1;
                due := now w1 + timeout_ms (obs_delay o1);
                handler := SetVisibleTrue |}.
      split; [apply in_or_app; right; left; reflexivity|].
      cbn. rewrite Hin, Hnow. lia.
Qed.

Lemma ahead_elapse ms w1 w2 :
  ahead w1 w2 ->
  fst (elapse ms w1) = fst (elapse ms w2) /\
  ahead (exec (elapse ms) w1) (exec (elapse ms) w2).
Proof.
  intros Ha. pose proof Ha as (Hph & Hnow & Href & Hcl & Hobs & Hvis & Hini & Htim).
  unfold exec, elapse. rewrite !fire_due_spec. split; [reflexivity|].
  cbn [snd with_now now timers phase timer_seq].
  rewrite <- Hph, <- Hnow.
  set (t := now w1 + Z.of_N ms).
  set (ready1 := List.filter (is_due t) (timers w1)).
  set (ready2 := List.filter (is_due t) (timers w2)).
  set (rest1 := List.filter (fun tm => negb (is_due t tm)) (timers w1)).
  set (rest2 := List.filter (fun tm => negb (is_due t tm)) (timers w2)).
  (* what the step does to the flag and the timers of each instance *)
  assert (Hfire : visible w1 = false -> phase w1 = Attached ->
                  ready2 <> [] -> ready1 <> []).
  { intros Hv1 Hatt Hne. destruct ready2 as [|t2 r2] eqn:Hr2; [congruence|].
    assert (Hin2 : In t2 ready2) by (rewrite Hr2; left; reflexivity).
    apply List.filter_In in Hin2 as [Hin2 Hdue2].
    destruct (Htim Hatt Hv1 t2 Hin2) as (t1 & Hin1 & Hle).
    assert (Hin : In t1 ready1).
    { apply List.filter_In. split; [exact Hin1|].
      unfold is_due in *. apply Z.leb_le. apply Z.leb_le in Hdue2. lia. }
    intros E. rewrite E in Hin. destruct Hin. }
  assert (Hrest : visible w1 = false -> phase w1 = Attached -> ready1 = [] ->
                  forall t2, In t2 rest2 ->
                    exists t1, In t1 rest1 /\ due t1 <= due t2).
  { intros Hv1 Hatt Hr1 t2 Hin2. apply List.filter_In in Hin2 as [Hin2 _].
    destruct (Htim Hatt Hv1 t2 Hin2) as (t1 & Hin1 & Hle).
    exists t1. split; [|exact Hle].
    destruct (filter_due_In t _ _ Hin1) as [Hin|Hin]; [|exact Hin].
    fold ready1 in Hin. rewrite Hr1 in Hin. destruct Hin. }
  assert (Hini' : phase w1 = Initial -> observers w2 = [] /\ rest2 = []).
  { intros Hph1. destruct (Hini Hph1) as [Hos2 Hts2].
    split; [exact Hos2|]. subst rest2. rewrite Hts2. reflexivity. }
  clearbody ready1 ready2 rest1 rest2.
  clear Hph Hnow Href Hcl Hobs Hvis Hini Htim.
  destruct (phase w1) eqn:Hph1; [| destruct (visible w1) eqn:Hv1 |];
    pose proof Ha as (Hph & Hnow & Href & Hcl & Hobs & Hvis & Hini & Htim).
  - (* not mounted yet: the flag is not touched *)
    assert (ahead
              (with_timers rest1 (timer_seq w1) (with_now t w1))
              (with_timers rest2 (timer_seq w2) (with_now t w2))).
    { refine (conj Hph (conj eq_refl (conj Href (conj Hcl (conj Hobs (conj Hvis (conj _ _))))))).
      - cbn. intros _. apply Hini'. reflexivity.
      - cbn. rewrite Hph1. discriminate. }
    destruct ready1, ready2; assumption.
  - (* mounted and already visible *)
    assert (forall b1 b2 : bool,
               ahead
                 ((if b1 then with_visible true else fun w => w)
                    (with_timers rest1 (timer_seq w1) (with_now t w1)))
                 ((if b2 then with_visible true else fun w => w)
                    (with_timers rest2 (timer_seq w2) (with_now t w2)))) as Hgen.
    { intros b1 b2.
      refine (conj _ (conj _ (conj _ (conj _ (conj _ (conj _ (conj _ _))))))).
      - destruct b1, b2; exact Hph.
      - destruct b1, b2; reflexivity.
      - destruct b1, b2; exact Href.
      - destruct b1, b2; exact Hcl.
      - destruct b1, b2; exact Hobs.
      - intros _. destruct b1; [reflexivity | exact Hv1].
      - destruct b1; cbn; rewrite Hph1; discriminate.
      - intros _ Hv. destruct b1; cbn in Hv; congruence. }
    destruct ready1, ready2.
    + apply (Hgen false false).
    + apply (Hgen false true).
    + apply (Hgen true false).
    + apply (Hgen true true).
  - (* mounted and still hidden *)
    destruct ready1 as [|t1 r1].
    + destruct ready2 as [|t2 r2];
        [|exfalso; apply (Hfire eq_refl eq_refl); [discriminate | reflexivity]].
      refine (conj Hph (conj eq_refl (conj Href (conj Hcl (conj Hobs (conj Hvis (conj _ _))))))).
      * cbn. rewrite Hph1. discriminate.
      * cbn. intros _ _. apply (Hrest eq_refl eq_refl eq_refl).
    + assert (forall b2 : bool,
                 ahead
                   (with_visible true
                      (with_timers rest1 (timer_seq w1) (with_now t w1)))
                   ((if b2 then with_visible true else fun w => w)
                      (with_timers rest2 (timer_seq w2) (with_now t w2)))) as Hgen.
      { intros b2.
        refine (conj _ (conj _ (conj _ (conj _ (conj _ (conj _ (conj _ _))))))).
        - destruct b2; exact Hph.
        - destruct b2; reflexivity.
        - destruct b2; exact Href.
        - destruct b2; exact Hcl.
        - destruct b2; exact Hobs.
        - intros _. reflexivity.
        - cbn. rewrite Hph1. discriminate.
        - cbn. intros _ Hv. discriminate. }
      destruct ready2; [apply (Hgen false) | apply (Hgen true)].
  - (* detached: the flag is not touched *)
    assert (ahead
              (with_timers rest1 (timer_seq w1) (with_now t w1))
              (with_timers rest2 (timer_seq w2) (with_now t w2))).
    { refine (conj Hph (conj eq_refl (conj Href (conj Hcl (conj Hobs (conj Hvis (conj _ _))))))).
      - cbn. rewrite Hph1. discriminate.
      - cbn. rewrite Hph1. discriminate. }
    destruct ready1, ready2; assumption.
Qed.

Lemma ahead_unmount w1 w2 :
  ahead w1 w2 ->
  fst (unmount w1) = fst (unmount w2) /\
  ahead (exec unmount w1) (exec unmount w2).
Proof.
  intros Ha. pose proof Ha as (Hph & _ & _ & Hcl & _).
  unfold exec, unmount. rewrite <- Hph, <- Hcl. clear Hph Hcl.
  destruct (phase w1) eqn:Hph1; try (split; [reflexivity | exact Ha]).
  destruct (effect_cleanup w1) as [[k]|] eqn:Hcl1;
    pose proof Ha as (Hph & Hnow & Href & Hcl & Hobs & Hvis & Hini & Htim);
    (split; [reflexivity|]); cbn [snd bind run_cleanup disconnect ret
                                    set_ref_current set_phase].
  - refine (conj _ (conj Hnow (conj _ (conj Hcl (conj _ (conj Hvis (conj _ _))))))).
    + reflexivity.
    + reflexivity.
    + cbn. apply Forall2_alter; [exact Hobs|].
      intros x y _ _ [_ Hxy]. split; [reflexivity | exact Hxy].
    + cbn. discriminate.
    + cbn. discriminate.
  - refine (conj _ (conj Hnow (conj _ (conj Hcl (conj Hobs (conj Hvis (conj _ _))))))).
    + reflexivity.
    + reflexivity.
    + cbn. discriminate.
    + cbn. discriminate.
Qed.

Lemma ahead_step ev w1 w2 :
  ahead w1 w2 ->
  fst (step h p1 ev w1) = fst (step h p2 ev w2) /\
  ahead (exec (step h p1 ev) w1) (exec (step h p2 ev) w2).
Proof.
  destruct ev as [|k es|ms|]; cbn [step].
  - apply ahead_mount.
  - apply ahead_deliver.
  - apply ahead_elapse.
  - apply ahead_unmount.
Qed.

Lemma ahead_run evs : forall w1 w2,
  ahead w1 w2 ->
  ahead (exec (run h p1 evs) w1) (exec (run h p2 evs) w2).
Proof.
  induction evs as [|ev evs IH]; intros w1 w2 Ha; [exact Ha|].
  destruct (ahead_step ev w1 w2 Ha) as [Hfst Hnext].
  unfold exec in *. rewrite !run_cons.
  destruct (step h p1 ev w1) as [[[]|e1] w1'], (step h p2 ev w2) as [[[]|e2] w2'];
    cbn in *; try discriminate.
  - apply IH, Hnext.
  - exact Hnext.
Qed.
End ShorterDelay.

Lemma ahead_fresh : ahead fresh fresh.
Proof.
  refine (conj eq_refl (conj eq_refl (conj eq_refl (conj eq_refl
            (conj _ (conj (fun H => H) (conj (fun _ => conj eq_refl eq_refl) _))))))).
  - constructor.
  - intros _ _ t2 [].
Qed.

(** X11. Of two instances in the same environment that go through the
    same events and differ in their delay only, the one with the shorter
    delay is visible whenever the other is: a shorter delay never reveals
    later. *)
Theorem shorter_delay_never_later (h : Host) (p1 p2 : RevealProp)
    (evs : list Event) :
  timeout_ms (delay_of p1) <= timeout_ms (delay_of p2) ->
  visible (exec (run h p2 evs) fresh) = true ->
  visible (exec (run h p1 evs) fresh) = true.
Proof.
  intros Hd Hv.
  destruct (ahead_run h p1 p2 Hd evs fresh fresh ahead_fresh)
    as (_ & _ & _ & _ & _ & Hvis & _).
  apply Hvis, Hv.
Qed.

Lemma shorter_delay_never_later_witness :
  visible (exec (run Scenario.page Scenario.reveal0
                   [Mount; Intersect 0%nat [Scenario.in25]; Elapse 80]) fresh)
  = true.
Proof.
  apply (shorter_delay_never_later Scenario.page Scenario.reveal0 Scenario.reveal80
           [Mount; Intersect 0%nat [Scenario.in25]; Elapse 80]).
  - vm_compute. discriminate.
  - reflexivity.
Defined.

(** ** The grid of [Skills] *)

(** X12. The names [Skills] lists are pairwise distinct, so the keys of
    its tiles are; each name has an entry of its own in [skillIcons], which
    is the icon its tile shows, so no tile falls back on the [Code] icon;
    and the table has no entry beyond these names. *)
Theorem every_skill_has_its_icon :
  NoDup (map tile_key Skills_tiles) /\
  Forall (fun t => skillIcons !! tile_key t = Some (tile_icon t) /\
                   tile_label t = tile_key t)
         Skills_tiles /\
  size skillIcons = length Skills_names.
Proof.
  split; [|split].
  - vm_compute. repeat (constructor; [rewrite list_elem_of_In; cbn; intuition discriminate|]).
    constructor.
  - unfold Skills_tiles, Skills_names. cbn [imap].
    repeat (constructor; [split; vm_compute; reflexivity|]). constructor.
  - vm_compute. reflexivity.
Qed.

Lemma Skills_tile_lookup i t :
  Skills_tiles !! i = Some t ->
  tile_delay t = Z.of_nat i * 50 /\ (i < 12)%nat.
Proof.
  unfold Skills_tiles. rewrite list_lookup_imap.
  destruct (Skills_names !! i) as [skill|] eqn:E; cbn; [|discriminate].
  intros [= <-]. split; [reflexivity|].
  apply lookup_lt_Some in E. exact E.
Qed.

(** X13. The tiles of [Skills] are staggered: the tile at position [i]
    has delay [50 * i], read as such by the timer API, and of two tiles
    that go through the same events the one that comes first in the grid
    is visible whenever the other is. *)
Theorem Skills_tiles_staggered (h : Host) (content : ReactNode)
    (i j : nat) (ti tj : SkillTile) (evs : list Event) :
  Skills_tiles !! i = Some ti ->
  Skills_tiles !! j = Some tj ->
  (i <= j)%nat ->
  timeout_ms (delay_of (tile_props content ti)) = 50 * Z.of_nat i /\
  (visible (exec (run h (tile_props content tj) evs) fresh) = true ->
   visible (exec (run h (tile_props content ti) evs) fresh) = true).
Proof.
  intros Hi Hj Hij.
  destruct (Skills_tile_lookup i ti Hi) as [Hdi Hli].
  destruct (Skills_tile_lookup j tj Hj) as [Hdj Hlj].
  assert (Hti : timeout_ms (delay_of (tile_props content ti)) = 50 * Z.of_nat i).
  { cbn. rewrite Hdi, timeout_ms_in_range;
      [lia | change (2 ^ 31) with 2147483648; lia]. }
  assert (Htj : timeout_ms (delay_of (tile_props content tj)) = 50 * Z.of_nat j).
  { cbn. rewrite Hdj, timeout_ms_in_range;
      [lia | change (2 ^ 31) with 2147483648; lia]. }
  split; [exact Hti|].
  intros Hv.
  assert (Hle : timeout_ms (delay_of (tile_props content ti))
                <= timeout_ms (delay_of (tile_props content tj)))
    by (rewrite Hti, Htj; lia).
  destruct (ahead_run h _ _ Hle evs fresh fresh ahead_fresh)
    as (_ & _ & _ & _ & _ & Hvis & _).
  apply Hvis, Hv.
Qed.

(** The tiles "Angular" (third) and "Postman" (eleventh), both in view at
    time 0: after 500 ms the second is visible, and so is the first. *)
Lemma Skills_tiles_staggered_witness :
  timeout_ms (delay_of (tile_props 0%nat
                          {| tile_key := "Angular"; tile_delay := 100;
                             tile_icon := icon "FaAngular";
                             tile_label := "Angular" |})) = 50 * 2 /\
  visible (exec (run Scenario.page
                   (tile_props 0%nat
                      {| tile_key := "Angular"; tile_delay := 100;
                         tile_icon := icon "FaAngular";
                         tile_label := "Angular" |})
                   [Mount; Intersect 0%nat [Scenario.in25]; Elapse 500]) fresh)
  = true.
Proof.
  destruct (Skills_tiles_staggered Scenario.page 0%nat 2%nat 10%nat
              {| tile_key := "Angular"; tile_delay := 100;
                 tile_icon := icon "FaAngular"; tile_label := "Angular" |}
              {| tile_key := "Postman"; tile_delay := 500;
                 tile_icon := icon "SiPostman"; tile_label := "Postman" |}
              [Mount; Intersect 0%nat [Scenario.in25]; Elapse 500])
    as [H1 H2].
  - vm_compute. reflexivity.
  - vm_compute. reflexivity.
  - lia.
  - split; [exact H1 | apply H2; reflexivity].
Defined.
